(** * Shop backend: products, payments and stock

    A shallow embedding of the business rules of the shop backend:
    - [products/models.py]: the pricing and stock properties of [Product],
      [Product.save] and [ProductImage.save];
    - [payments/tasks.py]: the M-Pesa callback task, the two periodic
      sweeps over transactions and the daily reconciliation;
    - the writers of [Product.stock_quantity] in [orders/serializers.py],
      [orders/tasks.py], [products/views.py], [products/serializers.py]
      and [inventory/tasks.py].

    Conventions.  A [DecimalField] value is a rational ([Q]): every
    operation the code performs on them is exact at the field sizes of
    the models.  A [DateTimeField] value is an integer number of
    microseconds ([Z]) and a nullable column is an [option].  A database
    table is a finite map from primary keys to rows. *)

From Stdlib Require Import ZArith QArith List String Bool Lia Lqa.
From stdpp Require Import gmap strings list fin_maps sorting.

Local Open Scope Z_scope.

(** ** Python values *)

(** Truth value of [x] for a nullable decimal: [None] and zero are false. *)
Definition decimal_truthy (x : option Q) : bool :=
  match x with
  | Some q => negb (Qeq_bool q 0)
  | None => false
  end.

(** Truth value of a nullable datetime or date: only [None] is false. *)
Definition datetime_truthy (x : option Z) : bool :=
  match x with
  | Some _ => true
  | None => false
  end.

(** Truth value of a string: only the empty string is false. *)
Definition str_truthy (s : string) : bool :=
  negb (String.eqb s "").

(** [x > 0] on decimals. *)
Definition Qgt0 (x : Q) : bool := negb (Qle_bool x 0).

Lemma Qgt0_true (x : Q) : Qgt0 x = true <-> (0 < x)%Q.
Proof.
  unfold Qgt0. rewrite negb_true_iff. split.
  - intros H. apply Qnot_le_lt. intros Hle.
    apply Qle_bool_iff in Hle. congruence.
  - intros H. destruct (Qle_bool x 0) eqn:E; [|reflexivity].
    apply Qle_bool_iff in E. exfalso. eapply Qlt_not_le; eauto.
Qed.

Lemma Qgt0_false (x : Q) : Qgt0 x = false <-> (x <= 0)%Q.
Proof.
  unfold Qgt0. rewrite negb_false_iff. apply Qle_bool_iff.
Qed.

Lemma decimal_truthy_Some (x : option Q) :
  decimal_truthy x = true <-> exists q, x = Some q /\ ~ (q == 0)%Q.
Proof.
  destruct x as [q|]; simpl.
  - rewrite negb_true_iff. split.
    + intros H. exists q. split; [reflexivity|].
      intros Hq. apply Qeq_bool_iff in Hq. congruence.
    + intros (q' & [= <-] & Hq).
      destruct (Qeq_bool q 0) eqn:E; [|reflexivity].
      apply Qeq_bool_iff in E. contradiction.
  - split; [discriminate|]. intros (q & Hq & _). discriminate.
Qed.

(** ** products/models.py *)

Module Products.

Record Product := {
  name : string;
  slug : string;
  sku : string;
  price : Q;
  discount_percentage : Q;
  sale_price : option Q;
  sale_starts_at : option Z;
  sale_ends_at : option Z;
  stock_quantity : Z;
  low_stock_threshold : Z;
  is_on_sale : bool;
  preorder_available : bool;
  backorder_allowed : bool;
  restock_date : option Z
}.

(** [Product.is_sale_active], with the reading of [timezone.now()] as
    an argument. *)
Definition is_sale_active (p : Product) (now : Z) : bool :=
  match sale_starts_at p, sale_ends_at p with
  | Some s, Some e => (s <=? now) && (now <=? e)
  | _, _ => true
  end.

(** [Product.final_price] *)
Definition final_price (p : Product) : Q :=
  if Qgt0 (discount_percentage p)
  then (price p - (price p * discount_percentage p / 100))%Q
  else price p.

(** [Product.current_price] *)
Definition current_price (p : Product) (now : Z) : Q :=
  match sale_price p with
  | Some s =>
      if negb (Qeq_bool s 0) && is_sale_active p now then s
      else final_price p
  | None => final_price p
  end.

(** [Product.savings_amount] *)
Definition savings_amount (p : Product) (now : Z) : Q :=
  (price p - current_price p now)%Q.

(** [Product.is_low_stock]: the chained comparison
    [0 < stock_quantity <= low_stock_threshold]. *)
Definition is_low_stock (p : Product) : bool :=
  (0 <? stock_quantity p) && (stock_quantity p <=? low_stock_threshold p).

(** [Product.is_in_stock] *)
Definition is_in_stock (p : Product) : bool :=
  0 <? stock_quantity p.

(** [Product.can_purchase] *)
Definition can_purchase (p : Product) : bool :=
  if is_in_stock p then true
  else preorder_available p || backorder_allowed p.

(** [Product.stock_status] *)
Definition stock_status (p : Product) : string :=
  if is_in_stock p then
    if is_low_stock p then "low_stock" else "in_stock"
  else if preorder_available p then "preorder"
  else if backorder_allowed p then "backorder"
  else if datetime_truthy (restock_date p) then "out_of_stock_restock_scheduled"
  else "out_of_stock".

Definition set_slug (p : Product) (s : string) : Product :=
  {| name := name p; slug := s; sku := sku p; price := price p;
     discount_percentage := discount_percentage p;
     sale_price := sale_price p; sale_starts_at := sale_starts_at p;
     sale_ends_at := sale_ends_at p; stock_quantity := stock_quantity p;
     low_stock_threshold := low_stock_threshold p;
     is_on_sale := is_on_sale p;
     preorder_available := preorder_available p;
     backorder_allowed := backorder_allowed p;
     restock_date := restock_date p |}.

Definition set_is_on_sale (p : Product) (b : bool) : Product :=
  {| name := name p; slug := slug p; sku := sku p; price := price p;
     discount_percentage := discount_percentage p;
     sale_price := sale_price p; sale_starts_at := sale_starts_at p;
     sale_ends_at := sale_ends_at p; stock_quantity := stock_quantity p;
     low_stock_threshold := low_stock_threshold p;
     is_on_sale := b;
     preorder_available := preorder_available p;
     backorder_allowed := backorder_allowed p;
     restock_date := restock_date p |}.

Section Save.

(** [django.utils.text.slugify] is a library function; the save hook
    only passes a string through it. *)
Variable slugify : string -> string.

(** [Product.save]: the instance as it is handed to the framework's
    [save]. *)
Definition save (p : Product) (now : Z) : Product :=
  let p1 :=
    if negb (str_truthy (slug p))
    then set_slug p (slugify (name p ++ "-" ++ sku p))
    else p in
  if decimal_truthy (sale_price p1) && is_sale_active p1 now
  then set_is_on_sale p1 true
  else if negb (decimal_truthy (sale_price p1))
          && Qeq_bool (discount_percentage p1) 0
  then set_is_on_sale p1 false
  else p1.

End Save.

(** The product of the model tests: 150.00, no discount, 50 in stock. *)
Definition headphones : Product :=
  {| name := "Premium Headphones"; slug := ""; sku := "HP-001";
     price := 150; discount_percentage := 0; sale_price := None;
     sale_starts_at := None; sale_ends_at := None;
     stock_quantity := 50; low_stock_threshold := 10;
     is_on_sale := false; preorder_available := false;
     backorder_allowed := false; restock_date := None |}.

Definition with_discount (p : Product) (d : Q) : Product :=
  {| name := name p; slug := slug p; sku := sku p; price := price p;
     discount_percentage := d;
     sale_price := sale_price p; sale_starts_at := sale_starts_at p;
     sale_ends_at := sale_ends_at p; stock_quantity := stock_quantity p;
     low_stock_threshold := low_stock_threshold p;
     is_on_sale := is_on_sale p;
     preorder_available := preorder_available p;
     backorder_allowed := backorder_allowed p;
     restock_date := restock_date p |}.

Definition with_sale (p : Product) (s : option Q) (a b : option Z) : Product :=
  {| name := name p; slug := slug p; sku := sku p; price := price p;
     discount_percentage := discount_percentage p;
     sale_price := s; sale_starts_at := a;
     sale_ends_at := b; stock_quantity := stock_quantity p;
     low_stock_threshold := low_stock_threshold p;
     is_on_sale := is_on_sale p;
     preorder_available := preorder_available p;
     backorder_allowed := backorder_allowed p;
     restock_date := restock_date p |}.

Definition with_stock (p : Product) (n : Z) : Product :=
  {| name := name p; slug := slug p; sku := sku p; price := price p;
     discount_percentage := discount_percentage p;
     sale_price := sale_price p; sale_starts_at := sale_starts_at p;
     sale_ends_at := sale_ends_at p; stock_quantity := n;
     low_stock_threshold := low_stock_threshold p;
     is_on_sale := is_on_sale p;
     preorder_available := preorder_available p;
     backorder_allowed := backorder_allowed p;
     restock_date := restock_date p |}.

(** The assertions of [products/tests.py] on these properties. *)
Example test_current_price_no_discount :
  Qeq (current_price headphones 1000) 150%Q.
Proof. reflexivity. Qed.

Example test_current_price_with_discount :
  Qeq (current_price (with_discount headphones 20%Q) 1000) 120%Q.
Proof. reflexivity. Qed.

Example test_current_price_with_sale_price :
  Qeq (current_price
         (with_sale headphones (Some 100%Q) (Some 900) (Some 1100)) 1000)
      100%Q.
Proof. reflexivity. Qed.

Example test_sale_price_expired :
  Qeq (current_price
         (with_sale headphones (Some 100%Q) (Some 800) (Some 900)) 1000)
      150%Q.
Proof. reflexivity. Qed.

Example test_savings_amount :
  Qeq (savings_amount (with_discount headphones 20%Q) 1000) 30%Q.
Proof. reflexivity. Qed.

Example test_stock_status_in_stock : stock_status headphones = "in_stock".
Proof. reflexivity. Qed.

Example test_stock_status_low_stock :
  stock_status (with_stock headphones 5) = "low_stock".
Proof. reflexivity. Qed.

Example test_stock_status_out_of_stock :
  stock_status (with_stock headphones 0) = "out_of_stock".
Proof. reflexivity. Qed.


(** *** Pricing *)

(** "[sale_price] is set": the column is non-null and its value is not
    zero, which is when Python takes [self.sale_price] as true. *)
Definition sale_price_set (p : Product) : Prop :=
  exists s, sale_price p = Some s /\ ~ (s == 0)%Q.

Lemma sale_price_set_truthy (p : Product) :
  sale_price_set p <-> decimal_truthy (sale_price p) = true.
Proof. symmetry. apply decimal_truthy_Some. Qed.

Lemma current_price_sale (p : Product) (now : Z) (s : Q) :
  sale_price p = Some s -> ~ (s == 0)%Q -> is_sale_active p now = true ->
  current_price p now = s.
Proof.
  intros Hs Hnz Hact. unfold current_price. rewrite Hs, Hact.
  destruct (Qeq_bool s 0) eqn:E; [|reflexivity].
  apply Qeq_bool_iff in E. contradiction.
Qed.

Lemma current_price_no_sale (p : Product) (now : Z) :
  ~ (sale_price_set p /\ is_sale_active p now = true) ->
  current_price p now = final_price p.
Proof.
  intros Hno. unfold current_price.
  destruct (sale_price p) as [s|] eqn:Hs; [|reflexivity].
  destruct (Qeq_bool s 0) eqn:E; [reflexivity|]. simpl.
  destruct (is_sale_active p now) eqn:Hact; [|reflexivity].
  exfalso. apply Hno. split; [|reflexivity].
  exists s. split; [assumption|]. intros Hz.
  apply Qeq_bool_iff in Hz. congruence.
Qed.

Lemma final_price_discount (p : Product) :
  (0 < discount_percentage p)%Q ->
  final_price p = (price p - price p * discount_percentage p / 100)%Q.
Proof.
  intros H. unfold final_price. apply Qgt0_true in H. now rewrite H.
Qed.

Lemma final_price_no_discount (p : Product) :
  (discount_percentage p <= 0)%Q -> final_price p = price p.
Proof.
  intros H. unfold final_price. apply Qgt0_false in H. now rewrite H.
Qed.

(** C3.  The computed [current_price] is [sale_price] whenever
    [sale_price] is set (non-null and non-zero) and the sale window is
    active; otherwise it is [price] reduced by [discount_percentage]
    ([price - price * discount_percentage / 100] when the percentage is
    positive, else [price]); and [savings_amount] is
    [price - current_price]. *)
Theorem current_price_spec (p : Product) (now : Z) :
  (sale_price_set p /\ is_sale_active p now = true ->
     Some (current_price p now) = sale_price p) /\
  (~ (sale_price_set p /\ is_sale_active p now = true) ->
     ((0 < discount_percentage p)%Q ->
        current_price p now
        = (price p - price p * discount_percentage p / 100)%Q) /\
     ((discount_percentage p <= 0)%Q -> current_price p now = price p)) /\
  savings_amount p now = (price p - current_price p now)%Q.
Proof.
  split; [|split].
  - intros [(s & Hs & Hnz) Hact].
    rewrite (current_price_sale p now s Hs Hnz Hact). now rewrite Hs.
  - intros Hno. rewrite (current_price_no_sale p now Hno). split.
    + apply final_price_discount.
    + apply final_price_no_discount.
  - reflexivity.
Qed.

(** The test product with a 20% discount and no sale price: the second
    branch gives 150 - 150 * 20 / 100. *)
Lemma current_price_spec_witness :
  current_price (with_discount headphones 20%Q) 1000
  = (150 - 150 * 20 / 100)%Q.
Proof.
  pose proof (current_price_spec (with_discount headphones 20%Q) 1000)
    as (_ & Hdisc & _).
  apply Hdisc.
  - intros [(s & Hs & _) _]. discriminate Hs.
  - reflexivity.
Defined.

(** C9.  When either sale boundary is null the sale counts as active at
    every time, so a product whose [sale_price] is set has
    [current_price = sale_price] at every time, also outside the one
    boundary that is set. *)
Theorem sale_active_without_boundary (p : Product) (now : Z) :
  sale_starts_at p = None \/ sale_ends_at p = None ->
  is_sale_active p now = true /\
  (forall s, sale_price p = Some s -> ~ (s == 0)%Q ->
             current_price p now = s).
Proof.
  intros Hnull.
  assert (Hact : is_sale_active p now = true).
  { unfold is_sale_active.
    destruct Hnull as [-> | ->]; [reflexivity|].
    now destruct (sale_starts_at p). }
  split; [exact Hact|].
  intros s Hs Hnz. now apply current_price_sale.
Qed.

(** A sale of 100 that starts at time 900 and has no end, read at
    time 5, before its start. *)
Lemma sale_active_without_boundary_witness :
  is_sale_active (with_sale headphones (Some 100%Q) (Some 900) None) 5 = true
  /\ current_price (with_sale headphones (Some 100%Q) (Some 900) None) 5
     = 100%Q.
Proof.
  pose proof (sale_active_without_boundary
                (with_sale headphones (Some 100%Q) (Some 900) None) 5
                (or_intror eq_refl)) as [Hact Hprice].
  split; [exact Hact|].
  apply Hprice; [reflexivity|]. intros H. discriminate H.
Defined.

(** *** Stock status *)

(** C8.  [stock_status] is ['low_stock'] exactly when
    [0 < stock_quantity <= low_stock_threshold], ['in_stock'] exactly
    when [stock_quantity] is positive and above the threshold, and for
    [stock_quantity <= 0] it is, in this order of priority, ['preorder'],
    ['backorder'], ['out_of_stock_restock_scheduled'] (a restock date is
    set) or ['out_of_stock']. *)
Theorem stock_status_spec (p : Product) :
  (stock_status p = "low_stock"
   <-> 0 < stock_quantity p <= low_stock_threshold p) /\
  (stock_status p = "in_stock"
   <-> 0 < stock_quantity p /\ low_stock_threshold p < stock_quantity p) /\
  (stock_quantity p <= 0 ->
   stock_status p =
     if preorder_available p then "preorder"
     else if backorder_allowed p then "backorder"
     else match restock_date p with
          | Some _ => "out_of_stock_restock_scheduled"
          | None => "out_of_stock"
          end).
Proof.
  unfold stock_status, is_in_stock, is_low_stock.
  destruct (Z.ltb_spec 0 (stock_quantity p)) as [Hpos | Hnpos];
    destruct (Z.leb_spec (stock_quantity p) (low_stock_threshold p))
      as [Hle | Hgt]; simpl.
  - repeat split; try lia; try discriminate.
  - repeat split; try lia; try discriminate.
  - repeat split; try lia;
      destruct (preorder_available p), (backorder_allowed p),
        (restock_date p); simpl; try discriminate; reflexivity.
  - repeat split; try lia;
      destruct (preorder_available p), (backorder_allowed p),
        (restock_date p); simpl; try discriminate; reflexivity.
Qed.

(** An empty shelf with a restock date and nothing else. *)
Lemma stock_status_spec_witness :
  stock_status
    {| name := "Amp"; slug := "amp"; sku := "A-1"; price := 10;
       discount_percentage := 0; sale_price := None;
       sale_starts_at := None; sale_ends_at := None;
       stock_quantity := 0; low_stock_threshold := 10;
       is_on_sale := false; preorder_available := false;
       backorder_allowed := false; restock_date := Some 19000 |}
  = "out_of_stock_restock_scheduled".
Proof.
  match goal with
  | |- stock_status ?p = _ =>
      pose proof (stock_status_spec p) as (_ & _ & Hout)
  end.
  apply Hout. simpl. lia.
Defined.

(** *** The save hook *)

Section SaveFacts.

Variable slugify : string -> string.

(** The slug is generated from name and SKU only when it is empty. *)
Lemma save_slug (p : Product) (now : Z) :
  slug (save slugify p now)
  = if String.eqb (slug p) "" then slugify (name p ++ "-" ++ sku p)
    else slug p.
Proof.
  unfold save, str_truthy. rewrite negb_involutive.
  destruct (String.eqb (slug p) ""); simpl;
    repeat match goal with
           | |- context [if ?b then _ else _] => destruct b; simpl
           end; reflexivity.
Qed.

(** The columns the flag is computed from are not changed by the slug
    step, so the conditions may be read on the instance as given. *)
Lemma save_is_on_sale (p : Product) (now : Z) :
  is_on_sale (save slugify p now)
  = if decimal_truthy (sale_price p) && is_sale_active p now then true
    else if negb (decimal_truthy (sale_price p))
            && Qeq_bool (discount_percentage p) 0 then false
    else is_on_sale p.
Proof.
  unfold save. destruct (negb (str_truthy (slug p))); simpl;
    unfold is_sale_active; simpl;
    repeat match goal with
           | |- context [if ?b then _ else _] => destruct b; simpl
           end; reflexivity.
Qed.

End SaveFacts.

(** C10.  [Product.save] writes [is_on_sale] in two cases only: [true]
    when [sale_price] is set and the sale window is active, [false] when
    [sale_price] is unset and [discount_percentage] equals 0; in the
    remaining cases ([sale_price] set with an inactive window, or unset
    with a non-zero discount) the flag keeps its value.  The slug is
    generated only when empty, and every other field is saved as
    given. *)
Theorem save_is_on_sale_frame
    (slugify : string -> string) (p : Product) (now : Z) :
  (sale_price_set p /\ is_sale_active p now = true ->
     is_on_sale (save slugify p now) = true) /\
  (~ sale_price_set p /\ (discount_percentage p == 0)%Q ->
     is_on_sale (save slugify p now) = false) /\
  ((sale_price_set p /\ is_sale_active p now = false)
   \/ (~ sale_price_set p /\ ~ (discount_percentage p == 0)%Q) ->
     is_on_sale (save slugify p now) = is_on_sale p) /\
  (slug p <> "" -> slug (save slugify p now) = slug p) /\
  (slug p = "" ->
     slug (save slugify p now) = slugify (name p ++ "-" ++ sku p)%string) /\
  name (save slugify p now) = name p /\
  sku (save slugify p now) = sku p /\
  price (save slugify p now) = price p /\
  discount_percentage (save slugify p now) = discount_percentage p /\
  sale_price (save slugify p now) = sale_price p /\
  sale_starts_at (save slugify p now) = sale_starts_at p /\
  sale_ends_at (save slugify p now) = sale_ends_at p /\
  stock_quantity (save slugify p now) = stock_quantity p /\
  low_stock_threshold (save slugify p now) = low_stock_threshold p /\
  preorder_available (save slugify p now) = preorder_available p /\
  backorder_allowed (save slugify p now) = backorder_allowed p /\
  restock_date (save slugify p now) = restock_date p.
Proof.
  split; [|split; [|split; [|split; [|split]]]].
  - intros [Hset Hact]. rewrite save_is_on_sale.
    apply sale_price_set_truthy in Hset. now rewrite Hset, Hact.
  - intros [Hunset Hzero]. rewrite save_is_on_sale.
    destruct (decimal_truthy (sale_price p)) eqn:Ht.
    + exfalso. apply Hunset. now apply sale_price_set_truthy.
    + simpl. apply Qeq_bool_iff in Hzero. now rewrite Hzero.
  - intros [[Hset Hinact] | [Hunset Hnz]]; rewrite save_is_on_sale.
    + apply sale_price_set_truthy in Hset. rewrite Hset, Hinact. reflexivity.
    + destruct (decimal_truthy (sale_price p)) eqn:Ht.
      * exfalso. apply Hunset. now apply sale_price_set_truthy.
      * simpl. destruct (Qeq_bool (discount_percentage p) 0) eqn:E;
          [|reflexivity].
        apply Qeq_bool_iff in E. contradiction.
  - intros Hne. rewrite save_slug.
    destruct (String.eqb_spec (slug p) ""); [contradiction|reflexivity].
  - intros He. rewrite save_slug. now rewrite He.
  - unfold save. destruct (negb (str_truthy (slug p))); simpl;
      repeat match goal with
             | |- context [if ?b then _ else _] => destruct b; simpl
             end; repeat split; reflexivity.
Qed.

(** The test of the on-sale endpoint: a 20% discount, no sale price and
    the flag set by hand; saving keeps the flag. *)
Lemma save_is_on_sale_frame_witness :
  is_on_sale
    (save (fun s => s)
          (set_is_on_sale (with_discount headphones 20%Q) true) 1000)
  = true.
Proof.
  pose proof (save_is_on_sale_frame (fun s => s)
                (set_is_on_sale (with_discount headphones 20%Q) true) 1000)
    as (_ & _ & Hkeep & _).
  rewrite Hkeep; [reflexivity|].
  right. split.
  - intros (s & Hs & _). discriminate Hs.
  - intros H. discriminate H.
Defined.

End Products.

(** ** products/models.py: product images *)

Module ProductImages.

(** A row of the image table; [product] is the foreign key. *)
Record ProductImage := {
  product : nat;
  alt_text : string;
  is_primary : bool;
  order : Z
}.

(** A model instance in memory: its primary key ([None] before the first
    save) and its field values. *)
Record instance := {
  pk : option nat;
  fields : ProductImage
}.

Definition set_is_primary (r : ProductImage) (b : bool) : ProductImage :=
  {| product := product r; alt_text := alt_text r;
     is_primary := b; order := order r |}.

(** [ProductImage.objects.filter(product=prod, is_primary=True)
       .update(is_primary=False)] *)
Definition clear_primary (prod : nat) (db : gmap nat ProductImage)
  : gmap nat ProductImage :=
  (fun r => if Nat.eqb (product r) prod && is_primary r
            then set_is_primary r false else r) <$> db.

(** The framework's [save]: the row is written under the instance's key,
    or under a new key when the instance has none. *)
Definition super_save (i : instance) (db : gmap nat ProductImage)
  : gmap nat ProductImage * nat :=
  let k := match pk i with
           | Some k => k
           | None => fresh (dom db)
           end in
  (<[k := fields i]> db, k).

(** [ProductImage.save] *)
Definition save (i : instance) (db : gmap nat ProductImage)
  : gmap nat ProductImage * nat :=
  let db1 := if is_primary (fields i)
             then clear_primary (product (fields i)) db
             else db in
  super_save i db1.

(** A sequence of saves, each on the table the previous one left. *)
Definition save_all (l : list instance) (db : gmap nat ProductImage)
  : gmap nat ProductImage :=
  foldl (fun d i => fst (save i d)) db l.

(** At most one primary image per product. *)
Definition one_primary (db : gmap nat ProductImage) : Prop :=
  forall i j ri rj,
    db !! i = Some ri -> db !! j = Some rj ->
    product ri = product rj ->
    is_primary ri = true -> is_primary rj = true ->
    i = j.

Lemma clear_primary_lookup prod (db : gmap nat ProductImage) j r :
  clear_primary prod db !! j = Some r ->
  exists r0, db !! j = Some r0 /\ product r = product r0 /\
             (is_primary r = true ->
              is_primary r0 = true /\ product r0 <> prod).
Proof.
  unfold clear_primary. rewrite lookup_fmap.
  destruct (db !! j) as [r0|] eqn:Hj; simpl; [|discriminate].
  intros [= <-]. exists r0. split; [reflexivity|].
  destruct (Nat.eqb_spec (product r0) prod) as [He | Hne]; simpl.
  - destruct (is_primary r0) eqn:Hp; simpl.
    + split; [reflexivity|]. discriminate.
    + split; [reflexivity|]. intros H. congruence.
  - split; [reflexivity|]. intros H. split; assumption.
Qed.

Lemma one_primary_empty : one_primary ∅.
Proof. intros i j ri rj Hi. rewrite lookup_empty in Hi. discriminate. Qed.

Lemma save_one_primary (i : instance) (db : gmap nat ProductImage) :
  one_primary db -> one_primary (fst (save i db)).
Proof.
  intros Hinv. unfold save, super_save. simpl.
  destruct (is_primary (fields i)) eqn:Hprim;
    match goal with
    | |- one_primary (<[?k0 := _]> _) => generalize k0; intros k
    end.
  - intros a b ra rb Ha Hb Hprod Hpa Hpb.
    destruct (decide (a = k)) as [-> | Hka];
      destruct (decide (b = k)) as [-> | Hkb]; [reflexivity| | |].
    + rewrite lookup_insert_eq in Ha. injection Ha as <-.
      rewrite lookup_insert_ne in Hb by congruence.
      apply clear_primary_lookup in Hb as (r0 & _ & Hp0 & Hc).
      destruct (Hc Hpb) as [_ Hne]. congruence.
    + rewrite lookup_insert_eq in Hb. injection Hb as <-.
      rewrite lookup_insert_ne in Ha by congruence.
      apply clear_primary_lookup in Ha as (r0 & _ & Hp0 & Hc).
      destruct (Hc Hpa) as [_ Hne]. congruence.
    + rewrite lookup_insert_ne in Ha by congruence.
      rewrite lookup_insert_ne in Hb by congruence.
      apply clear_primary_lookup in Ha as (ra0 & Ha0 & Hpa0 & Hca).
      apply clear_primary_lookup in Hb as (rb0 & Hb0 & Hpb0 & Hcb).
      destruct (Hca Hpa) as [Hpa1 _]. destruct (Hcb Hpb) as [Hpb1 _].
      apply (Hinv a b ra0 rb0); try assumption. congruence.
  - intros a b ra rb Ha Hb Hprod Hpa Hpb.
    destruct (decide (a = k)) as [-> | Hka].
    { rewrite lookup_insert_eq in Ha. injection Ha as <-. congruence. }
    destruct (decide (b = k)) as [-> | Hkb].
    { rewrite lookup_insert_eq in Hb. injection Hb as <-. congruence. }
    rewrite lookup_insert_ne in Ha by congruence.
    rewrite lookup_insert_ne in Hb by congruence.
    now apply (Hinv a b ra rb).
Qed.

Lemma save_all_one_primary (l : list instance) :
  forall db, one_primary db -> one_primary (save_all l db).
Proof.
  unfold save_all. induction l as [|i l IH]; intros db Hinv; simpl.
  - exact Hinv.
  - apply IH. now apply save_one_primary.
Qed.

(** After a save with the flag set, the saved row is the only primary
    image of its product. *)
Lemma save_primary_clears_others (i : instance) (db : gmap nat ProductImage) :
  is_primary (fields i) = true ->
  fst (save i db) !! snd (save i db) = Some (fields i) /\
  forall j r, j <> snd (save i db) ->
              fst (save i db) !! j = Some r ->
              product r = product (fields i) ->
              is_primary r = false.
Proof.
  intros Hprim. unfold save, super_save. rewrite Hprim. simpl. split.
  - apply lookup_insert_eq.
  - intros j r Hj Hr Hprod.
    rewrite lookup_insert_ne in Hr by congruence.
    apply clear_primary_lookup in Hr as (r0 & _ & Hp0 & Hc).
    destruct (is_primary r) eqn:Hp; [|reflexivity].
    destruct (Hc eq_refl) as [_ Hne]. congruence.
Qed.

(** What a save leaves of a row that was in the table and is not the
    row saved: the row itself, its flag cleared when the image saved is
    primary and of the same product. *)
Definition after_save (i : instance) (r0 : ProductImage) : ProductImage :=
  if is_primary (fields i) && Nat.eqb (product r0) (product (fields i))
  then set_is_primary r0 false
  else r0.

Lemma set_is_primary_same (r : ProductImage) :
  set_is_primary r (is_primary r) = r.
Proof. destruct r. reflexivity. Qed.

Lemma save_key (i : instance) (db : gmap nat ProductImage) :
  (forall k0, pk i = Some k0 -> snd (save i db) = k0) /\
  (pk i = None -> db !! snd (save i db) = None).
Proof.
  unfold save, super_save. simpl. split.
  - intros k0 ->. reflexivity.
  - intros ->. apply not_elem_of_dom.
    destruct (is_primary (fields i)).
    + unfold clear_primary. rewrite dom_fmap_L. apply is_fresh.
    + apply is_fresh.
Qed.

Lemma save_other_rows (i : instance) (db : gmap nat ProductImage) (j : nat) :
  j <> snd (save i db) ->
  fst (save i db) !! j = after_save i <$> db !! j.
Proof.
  unfold save, super_save, after_save. simpl. intros Hj.
  rewrite lookup_insert_ne by congruence.
  destruct (is_primary (fields i)); simpl.
  - unfold clear_primary. rewrite lookup_fmap.
    destruct (db !! j) as [r0|]; [|reflexivity]. simpl. f_equal.
    destruct (Nat.eqb (product r0) (product (fields i))); [|reflexivity].
    simpl. destruct (is_primary r0) eqn:Hp; [reflexivity|].
    rewrite <- Hp. symmetry. apply set_is_primary_same.
  - destruct (db !! j); reflexivity.
Qed.

(** C6.  After any sequence of [ProductImage.save] calls on a table
    with at most one primary image per product (the empty table is one),
    every product still has at most one primary image.  A save stores
    the image as it is, under its own key or under a key that was free;
    it deletes no other row and changes none but in the flag: with
    [is_primary] set it clears the flag on every other image of the same
    product, leaving the images of other products as they were, and
    without it no other row changes. *)
Theorem one_primary_image_per_product
    (l : list instance) (db : gmap nat ProductImage) :
  one_primary db ->
  one_primary (save_all l db) /\
  (forall i d,
     (forall k0, pk i = Some k0 -> snd (save i d) = k0) /\
     (pk i = None -> d !! snd (save i d) = None) /\
     fst (save i d) !! snd (save i d) = Some (fields i) /\
     (forall j, j <> snd (save i d) ->
        match d !! j with
        | Some r0 =>
            exists r, fst (save i d) !! j = Some r
              /\ product r = product r0 /\ alt_text r = alt_text r0
              /\ order r = order r0
              /\ is_primary r
                 = is_primary r0
                   && negb (is_primary (fields i)
                            && Nat.eqb (product r0) (product (fields i)))
        | None => fst (save i d) !! j = None
        end) /\
     (is_primary (fields i) = true ->
      forall j r, j <> snd (save i d) ->
                  fst (save i d) !! j = Some r ->
                  product r = product (fields i) ->
                  is_primary r = false)).
Proof.
  intros Hinv. split; [now apply save_all_one_primary|].
  intros i d. destruct (save_key i d) as [Hold Hnew].
  split; [exact Hold|]. split; [exact Hnew|].
  split.
  { unfold save, super_save. simpl. apply lookup_insert_eq. }
  split.
  - intros j Hj. rewrite (save_other_rows i d j Hj).
    destruct (d !! j) as [r0|]; [|reflexivity].
    eexists. split; [reflexivity|]. unfold after_save.
    destruct (is_primary (fields i)
              && Nat.eqb (product r0) (product (fields i))); simpl.
    + rewrite andb_false_r. repeat split.
    + rewrite andb_true_r. repeat split.
  - intros Hprim. apply (save_primary_clears_others i d Hprim).
Qed.

(** The model test [test_only_one_primary_image]: two primary images
    created for product 7. *)
Definition image1 : instance :=
  {| pk := None;
     fields := {| product := 7; alt_text := "one";
                  is_primary := true; order := 1 |} |}.

Definition image2 : instance :=
  {| pk := None;
     fields := {| product := 7; alt_text := "two";
                  is_primary := true; order := 2 |} |}.

Example test_only_one_primary_image :
  is_primary <$> (save_all [image1; image2] ∅ !! 0%nat) = Some false /\
  is_primary <$> (save_all [image1; image2] ∅ !! 1%nat) = Some true.
Proof. split; vm_compute; reflexivity. Qed.

Lemma one_primary_image_per_product_witness :
  one_primary (save_all [image1; image2] ∅)
  /\ fst (save image2 (save_all [image1] ∅))
       !! snd (save image2 (save_all [image1] ∅))
     = Some (fields image2).
Proof.
  destruct (one_primary_image_per_product
              [image1; image2] ∅ one_primary_empty) as [Hone Hsave].
  split; [exact Hone|].
  destruct (Hsave image2 (save_all [image1] ∅)) as (_ & _ & Hstored & _).
  exact Hstored.
Defined.

End ProductImages.

(** ** payments/tasks.py *)

Module Payments.

(** A row of the M-Pesa transaction table (the columns the tasks read
    or write). *)
Record MpesaTransaction := {
  status : string;
  result_code : option Z;
  result_desc : string;
  amount : Q;
  checkout_request_id : string;
  initiated_at : Z;
  failed_at : option Z
}.

(** Modelled from the spec: the status choices of [MpesaTransaction]
    ([payments/models.py] is not among the sources); the spec enumerates
    pending/processing/completed/failed/cancelled/timeout. *)
Definition STATUS_CHOICES : list string :=
  ["pending"; "processing"; "completed"; "failed"; "cancelled"; "timeout"].

Definition valid_status (s : string) : Prop := s ∈ STATUS_CHOICES.

(** [timedelta(hours=2)] and [timedelta(minutes=5)], in microseconds. *)
Definition two_hours : Z := 2 * 3600 * 1000000.
Definition five_minutes : Z := 5 * 60 * 1000000.

(** A task sent to the queue with [.delay(...)]. *)
Inductive task_call :=
| send_payment_confirmation_email (transaction_id : nat)
| send_payment_failed_notification (transaction_id : nat)
| send_admin_payment_alert
    (transaction_id : option nat) (alert_type message : string).

(** What a task can touch: the transaction table, the queue of delayed
    tasks, and the number of clock readings taken so far. *)
Record world := {
  transactions : gmap nat MpesaTransaction;
  outbox : list task_call;
  ticks : nat
}.

Definition delay (c : task_call) (w : world) : world :=
  {| transactions := transactions w;
     outbox := outbox w ++ [c];
     ticks := ticks w |}.

(** [transaction.save()]: the row is written under its primary key. *)
Definition save (id : nat) (t : MpesaTransaction) (w : world) : world :=
  {| transactions := <[id := t]> (transactions w);
     outbox := outbox w;
     ticks := ticks w |}.

(** [Model.objects.filter(...)]: the rows that satisfy the lookup, with
    their keys.  The order of the rows is the table's
    default ordering, which no task below depends on. *)
Definition objects_filter {row : Type} (P : row -> Prop)
    `{!forall t, Decision (P t)} (db : gmap nat row)
  : list (nat * row) :=
  map_to_list (filter (fun kv => P (snd kv)) db).

Section Clock.

(** [clock n] is what the [n]-th call of [timezone.now()] returns. *)
Variable clock : nat -> Z.

Definition timezone_now (w : world) : Z * world :=
  (clock (ticks w),
   {| transactions := transactions w;
      outbox := outbox w;
      ticks := S (ticks w) |}).

(** The three assignments of the loop body of the timeout sweep. *)
Definition timed_out (t : MpesaTransaction) (now : Z) : MpesaTransaction :=
  {| status := "timeout";
     result_code := result_code t;
     result_desc := "Transaction timed out - no response from M-Pesa";
     amount := amount t;
     checkout_request_id := checkout_request_id t;
     initiated_at := initiated_at t;
     failed_at := Some now |}.

(** The [for transaction in stuck_transactions] loop. *)
Fixpoint timeout_loop (l : list (nat * MpesaTransaction))
    (w : world) (timeout_count : nat) : world * nat :=
  match l with
  | [] => (w, timeout_count)
  | (id, t) :: l' =>
      let (now, w1) := timezone_now w in
      let w2 := save id (timed_out t now) w1 in
      let w3 := delay (send_payment_failed_notification id) w2 in
      let w4 :=
        delay (send_admin_payment_alert (Some id) "Transaction Timeout"
                 ("Transaction " ++ checkout_request_id t
                  ++ " timed out after 2 hours")) w3 in
      timeout_loop l' w4 (S timeout_count)
  end.

(** [auto_timeout_stuck_transactions]: returns the world it leaves and
    the count it reports. *)
Definition auto_timeout_stuck_transactions (w : world) : world * nat :=
  let (now, w1) := timezone_now w in
  let cutoff_time := now - two_hours in
  let stuck_transactions :=
    objects_filter
      (fun t => status t = "processing" /\ initiated_at t <= cutoff_time)
      (transactions w1) in
  timeout_loop stuck_transactions w1 0.

End Clock.

(** *** The timeout sweep *)

Lemma objects_filter_elem {row : Type} (P : row -> Prop)
    `{!forall t, Decision (P t)} (db : gmap nat row) id t :
  (id, t) ∈ objects_filter P db <-> db !! id = Some t /\ P t.
Proof.
  unfold objects_filter. rewrite elem_of_map_to_list.
  rewrite map_lookup_filter_Some. reflexivity.
Qed.

Lemma objects_filter_NoDup {row : Type} (P : row -> Prop)
    `{!forall t, Decision (P t)} (db : gmap nat row) :
  NoDup (objects_filter P db).*1.
Proof. apply NoDup_fst_map_to_list. Qed.

Lemma objects_filter_key {row : Type} (P : row -> Prop)
    `{!forall t, Decision (P t)} (db : gmap nat row) id :
  id ∈ (objects_filter P db).*1 <->
  exists t, db !! id = Some t /\ P t.
Proof.
  rewrite list_elem_of_fmap. split.
  - intros ([id' t] & -> & Hin). apply objects_filter_elem in Hin. eauto.
  - intros (t & Ht & HP). exists (id, t). split; [reflexivity|].
    apply objects_filter_elem. auto.
Qed.

Section TimeoutSweep.

Variable clock : nat -> Z.

Lemma timeout_loop_other (l : list (nat * MpesaTransaction)) :
  forall w c id,
    id ∉ l.*1 ->
    transactions (fst (timeout_loop clock l w c)) !! id
    = transactions w !! id.
Proof.
  induction l as [|[id0 t0] l IH]; intros w c id Hnotin; simpl.
  - reflexivity.
  - rewrite fmap_cons in Hnotin. apply not_elem_of_cons in Hnotin as [Hne Hl].
    rewrite IH by assumption. simpl. now rewrite lookup_insert_ne.
Qed.

Lemma timeout_loop_hit (l : list (nat * MpesaTransaction)) :
  forall w c id t,
    NoDup l.*1 -> (id, t) ∈ l ->
    exists n,
      (ticks w <= n)%nat /\
      transactions (fst (timeout_loop clock l w c)) !! id
      = Some (timed_out t (clock n)).
Proof.
  induction l as [|[id0 t0] l IH]; intros w c id t Hnd Hin; simpl.
  - inversion Hin.
  - rewrite fmap_cons in Hnd. apply NoDup_cons in Hnd as [Hfresh Hnd].
    apply elem_of_cons in Hin as [[= -> ->] | Hin].
    + exists (ticks w). split; [lia|].
      rewrite timeout_loop_other by assumption. simpl.
      apply lookup_insert_eq.
    + edestruct IH as (n & Hn & Hlook); [exact Hnd | exact Hin |].
      exists n. split; [|exact Hlook]. simpl in Hn. lia.
Qed.

End TimeoutSweep.

(** C1.  The hourly sweep turns into ['timeout'] exactly the
    transactions that are ['processing'] and were initiated at least two
    hours before the sweep time: each of them gets the timeout result
    description and, as [failed_at], a reading of the clock taken during
    the sweep, its other columns are kept; every other row is left as it
    was, no row appears or disappears; and when every status was one of
    the six choices before the sweep, every status is one of them after
    it. *)
Theorem auto_timeout_sweep (clock : nat -> Z) (w : world) :
  let sweep_time := clock (ticks w) in
  let w' := fst (auto_timeout_stuck_transactions clock w) in
  (forall id t,
     transactions w !! id = Some t ->
     status t = "processing" -> initiated_at t <= sweep_time - two_hours ->
     exists n t',
       (ticks w < n)%nat /\
       transactions w' !! id = Some t' /\ t' = timed_out t (clock n) /\
       status t' = "timeout" /\ failed_at t' = Some (clock n) /\
       result_desc t'
       = "Transaction timed out - no response from M-Pesa"%string) /\
  (forall id t,
     transactions w !! id = Some t ->
     ~ (status t = "processing"
        /\ initiated_at t <= sweep_time - two_hours) ->
     transactions w' !! id = Some t) /\
  (forall id,
     transactions w !! id = None -> transactions w' !! id = None) /\
  ((forall id t, transactions w !! id = Some t -> valid_status (status t)) ->
   forall id t, transactions w' !! id = Some t -> valid_status (status t)).
Proof.
  intros sweep_time w'.
  set (P := fun t => status t = "processing"
                     /\ initiated_at t <= sweep_time - two_hours).
  assert (Hw' : w' = fst (timeout_loop clock
                            (objects_filter P (transactions w))
                            (snd (timezone_now clock w)) 0))
    by reflexivity.
  assert (Hhit : forall id t,
             transactions w !! id = Some t -> P t ->
             exists n, (ticks w < n)%nat /\
                       transactions w' !! id
                       = Some (timed_out t (clock n))).
  { intros id t Ht HP. rewrite Hw'.
    edestruct (timeout_loop_hit clock (objects_filter P (transactions w))
                 (snd (timezone_now clock w)) 0%nat id t)
      as (n & Hn & Hlook).
    - apply objects_filter_NoDup.
    - apply objects_filter_elem. auto.
    - exists n. split; [simpl in Hn; lia | exact Hlook]. }
  assert (Hmiss : forall id,
             ~ (exists t, transactions w !! id = Some t /\ P t) ->
             transactions w' !! id = transactions w !! id).
  { intros id Hno. rewrite Hw'. rewrite timeout_loop_other; [reflexivity|].
    intros Hin. apply Hno. now apply objects_filter_key in Hin. }
  split; [|split; [|split]].
  - intros id t Ht Hs Hi.
    destruct (Hhit id t Ht (conj Hs Hi)) as (n & Hn & Hlook).
    exists n, (timed_out t (clock n)). repeat split; assumption.
  - intros id t Ht Hno. rewrite Hmiss; [assumption|].
    intros (t0 & Ht0 & HP0). rewrite Ht in Ht0. injection Ht0 as <-.
    now apply Hno.
  - intros id Hnone. rewrite Hmiss; [assumption|].
    intros (t0 & Ht0 & _). congruence.
  - intros Hvalid id t' Ht'.
    destruct (transactions w !! id) as [t|] eqn:Ht.
    + destruct (decide (P t)) as [HP | HnP].
      * destruct (Hhit id t Ht HP) as (n & _ & Hlook).
        rewrite Hlook in Ht'. injection Ht' as <-. simpl.
        unfold valid_status, STATUS_CHOICES.
        apply list_elem_of_In. simpl. tauto.
      * rewrite Hmiss in Ht'.
        -- rewrite Ht in Ht'. injection Ht' as <-. now apply (Hvalid id).
        -- intros (t0 & Ht0 & HP0). rewrite Ht in Ht0.
           injection Ht0 as <-. contradiction.
    + rewrite Hmiss in Ht'; [congruence|].
      intros (t0 & Ht0 & _). congruence.
Qed.

(** Three transactions at sweep time 10 h: one stuck for three hours,
    one processing for one hour, one completed long ago. *)
Definition hour : Z := 3600 * 1000000.

Definition tx (s : string) (at_ : Z) : MpesaTransaction :=
  {| status := s; result_code := None; result_desc := "";
     amount := 100; checkout_request_id := "ws_CO_1";
     initiated_at := at_; failed_at := None |}.

Definition sweep_world : world :=
  {| transactions :=
       <[1%nat := tx "processing" (7 * hour)]>
         (<[2%nat := tx "processing" (9 * hour)]>
            (<[3%nat := tx "completed" (1 * hour)]> ∅));
     outbox := [];
     ticks := 0 |}.

Example sweep_world_swept :
  let r := auto_timeout_stuck_transactions (fun _ => 10 * hour) sweep_world in
  status <$> (transactions (fst r) !! 1%nat) = Some "timeout"%string
  /\ status <$> (transactions (fst r) !! 2%nat) = Some "processing"%string
  /\ status <$> (transactions (fst r) !! 3%nat) = Some "completed"%string
  /\ snd r = 1%nat
  /\ outbox (fst r)
     = [ send_payment_failed_notification 1;
         send_admin_payment_alert (Some 1%nat) "Transaction Timeout"
           "Transaction ws_CO_1 timed out after 2 hours" ].
Proof. vm_compute. repeat split. Qed.

Lemma auto_timeout_sweep_witness :
  transactions
    (fst (auto_timeout_stuck_transactions (fun _ => 10 * hour) sweep_world))
    !! 1%nat
  = Some (timed_out (tx "processing" (7 * hour)) (10 * hour)).
Proof.
  destruct (auto_timeout_sweep (fun _ => 10 * hour) sweep_world)
    as (Hstuck & _).
  destruct (Hstuck 1%nat (tx "processing" (7 * hour)))
    as (n & t' & _ & Ht' & -> & _).
  - reflexivity.
  - reflexivity.
  - vm_compute. discriminate.
  - exact Ht'.
Defined.

(** *** The reconciliation sweep over processing transactions *)

(** What [service.check_payment_status(checkout_request_id)] does: it
    raises, or returns [None] or the updated transaction (its primary
    key and row). *)
Inductive check_result :=
| Raised
| Returned (updated_transaction : option (nat * MpesaTransaction)).

(** The accumulators of the loop: the counters, the tasks queued, and
    the state of the payment service. *)
Record sweep (service_state : Type) := {
  service : service_state;
  queue : list task_call;
  checked_count : nat;
  updated_count : nat
}.
Arguments service {_} _.
Arguments queue {_} _.
Arguments checked_count {_} _.
Arguments updated_count {_} _.


Section CheckPending.

(** [MpesaPaymentService] lives in [payments/services.py], which is not
    among the sources: the sweep is stated for any service, given as a
    transition on a state of its own (the remote side and the rows it
    writes). *)
Variable service_state : Type.
Variable check_payment_status :
  string -> service_state -> check_result * service_state.

(** One iteration: the body of the [try], with [except: continue]. *)
Definition check_one (x : nat * MpesaTransaction) (a : sweep service_state)
  : sweep service_state :=
  let checked := S (checked_count a) in
  match check_payment_status (checkout_request_id (snd x)) (service a) with
  | (Raised, s1) =>
      {| service := s1; queue := queue a;
         checked_count := checked; updated_count := updated_count a |}
  | (Returned None, s1) =>
      {| service := s1; queue := queue a;
         checked_count := checked; updated_count := updated_count a |}
  | (Returned (Some (uid, u)), s1) =>
      if negb (String.eqb (status u) "processing") then
        {| service := s1;
           queue :=
             if String.eqb (status u) "completed"
             then queue a ++ [send_payment_confirmation_email uid]
             else if bool_decide
                       (status u ∈ ["failed"; "cancelled"; "timeout"])
             then queue a ++ [send_payment_failed_notification uid]
             else queue a;
           checked_count := checked;
           updated_count := S (updated_count a) |}
      else
        {| service := s1; queue := queue a;
           checked_count := checked; updated_count := updated_count a |}
  end.

Definition check_loop (l : list (nat * MpesaTransaction))
    (a : sweep service_state) : sweep service_state :=
  foldl (fun a x => check_one x a) a l.

(** The queryset of the sweep: ['processing'] rows initiated at or before
    the cutoff, without those whose [checkout_request_id] is empty. *)
Definition pending_transactions (now : Z) (db : gmap nat MpesaTransaction)
  : list (nat * MpesaTransaction) :=
  let cutoff_time := now - five_minutes in
  objects_filter
    (fun t => (status t = "processing" /\ initiated_at t <= cutoff_time)
              /\ checkout_request_id t <> ""%string)
    db.

(** [check_pending_transactions], on the table as the queryset reads it
    and the service state at the start. *)
Definition check_pending_transactions
    (now : Z) (db : gmap nat MpesaTransaction) (s : service_state)
  : sweep service_state :=
  check_loop (pending_transactions now db)
    {| service := s; queue := []; checked_count := 0; updated_count := 0 |}.








End CheckPending.



(** A service that finds payment A completed and payment B failed,
    fails on C and still sees D in progress. *)
Definition answered (s : string) : MpesaTransaction :=
  {| status := s; result_code := None; result_desc := "";
     amount := 100; checkout_request_id := "";
     initiated_at := 0; failed_at := None |}.

Definition sample_service (checkout : string) (calls : nat)
  : check_result * nat :=
  (if String.eqb checkout "A" then Returned (Some (11%nat, answered "completed"))
   else if String.eqb checkout "B" then Returned (Some (12%nat, answered "failed"))
   else if String.eqb checkout "C" then Raised
   else Returned (Some (14%nat, answered "processing")),
   S calls).

Definition asked_for (checkout : string) (at_ : Z) : MpesaTransaction :=
  {| status := "processing"; result_code := None; result_desc := "";
     amount := 100; checkout_request_id := checkout;
     initiated_at := at_; failed_at := None |}.

Definition sample_table : gmap nat MpesaTransaction :=
  <[11%nat := asked_for "A" 0]>
    (<[12%nat := asked_for "B" 0]>
       (<[13%nat := asked_for "C" 0]>
          (<[14%nat := asked_for "D" 0]>
             (<[15%nat := asked_for "A" (hour - hour / 60)]> ∅)))).

Example check_pending_sample :
  let r :=
    check_pending_transactions nat sample_service hour sample_table 0%nat in
  checked_count r = 4%nat /\ updated_count r = 2%nat /\ service r = 4%nat
  /\ queue r ≡ₚ [ send_payment_confirmation_email 11;
                  send_payment_failed_notification 12 ].
Proof. vm_compute. repeat split. apply perm_swap. Qed.





(** *** The daily reconciliation *)

(** A row of the refund table. *)
Module Refund.
Record MpesaRefund := {
  status : string;
  amount : Q;
  initiated_at : Z
}.
End Refund.

(** The calendar day of a datetime, as a day number. *)
Definition date_of (t : Z) : Z := t / (24 * hour).

(** [qs.aggregate(Sum('amount'))['amount__sum']]: [None] on an empty
    queryset. *)
Definition sum_amounts (l : list Q) : Q := foldr Qplus 0%Q l.

Definition aggregate_sum (l : list Q) : option Q :=
  match l with
  | [] => None
  | _ => Some (sum_amounts l)
  end.

(** [x or 0] *)
Definition or_zero (x : option Q) : Q :=
  if decimal_truthy x then default 0%Q x else 0%Q.

(** The report dictionary, flattened.  The three amounts are the values
    handed to [float(...)]. *)
Record report := {
  date : Z;
  total : nat;
  successful : nat;
  failed : nat;
  pending : nat;
  cancelled : nat;
  gross_revenue : Q;
  refunds : Q;
  net_revenue : Q;
  success_rate : Q
}.

Definition is_successful (x : nat * MpesaTransaction) : Prop :=
  status (snd x) = "completed"%string /\ result_code (snd x) = Some 0.

Definition is_failed (x : nat * MpesaTransaction) : Prop :=
  status (snd x) = "failed"%string.

Definition is_pending (x : nat * MpesaTransaction) : Prop :=
  status (snd x) ∈ ["pending"; "processing"].

Definition is_cancelled (x : nat * MpesaTransaction) : Prop :=
  status (snd x) ∈ ["cancelled"; "timeout"].

Global Instance is_successful_dec x : Decision (is_successful x).
Proof. unfold is_successful. apply _. Defined.
Global Instance is_failed_dec x : Decision (is_failed x).
Proof. unfold is_failed. apply _. Defined.
Global Instance is_pending_dec x : Decision (is_pending x).
Proof. unfold is_pending. apply _. Defined.
Global Instance is_cancelled_dec x : Decision (is_cancelled x).
Proof. unfold is_cancelled. apply _. Defined.

(** The transactions and the refunds initiated on the day of [now]. *)
Definition transactions_of_day (now : Z) (db : gmap nat MpesaTransaction)
  : list (nat * MpesaTransaction) :=
  objects_filter (fun t => date_of (initiated_at t) = date_of now) db.

Definition refunds_of_day (now : Z) (db : gmap nat Refund.MpesaRefund)
  : list (nat * Refund.MpesaRefund) :=
  objects_filter (fun r => date_of (Refund.initiated_at r) = date_of now) db.

(** [reconcile_daily_transactions]: the report it returns. *)
Definition reconcile_daily_transactions (now : Z)
    (db : gmap nat MpesaTransaction) (rdb : gmap nat Refund.MpesaRefund)
  : report :=
  let today := date_of now in
  let transactions := transactions_of_day now db in
  let total_transactions := length transactions in
  let successful := length (filter is_successful transactions) in
  let failed := length (filter is_failed transactions) in
  let pending := length (filter is_pending transactions) in
  let cancelled := length (filter is_cancelled transactions) in
  let total_amount :=
    or_zero (aggregate_sum
               ((fun x => amount (snd x))
                  <$> filter is_successful transactions)) in
  let refunds := refunds_of_day now rdb in
  let refund_amount :=
    or_zero (aggregate_sum
               ((fun x => Refund.amount (snd x))
                  <$> filter (fun x => Refund.status (snd x)
                                       = "completed"%string) refunds)) in
  {| date := today;
     total := total_transactions;
     successful := successful;
     failed := failed;
     pending := pending;
     cancelled := cancelled;
     gross_revenue := total_amount;
     refunds := refund_amount;
     net_revenue := (total_amount - refund_amount)%Q;
     success_rate :=
       if (0 <? total_transactions)%nat
       then (inject_Z (Z.of_nat successful)
             / inject_Z (Z.of_nat total_transactions) * 100)%Q
       else 0%Q |}.

(** A transaction marked ['completed'] whose [result_code] is not 0:
    no bucket of the report counts it. *)
Definition is_unconfirmed (x : nat * MpesaTransaction) : Prop :=
  status (snd x) = "completed"%string /\ result_code (snd x) <> Some 0.

Global Instance is_unconfirmed_dec x : Decision (is_unconfirmed x).
Proof. unfold is_unconfirmed. apply _. Defined.







Lemma filter_none {A} (P : A -> Prop) `{!forall x, Decision (P x)}
    (l : list A) :
  (forall x, x ∈ l -> ~ P x) -> filter P l = [].
Proof.
  induction l as [|x l IH]; intros Hno; [reflexivity|].
  rewrite filter_cons_False.
  - apply IH. intros y Hy. apply Hno. now apply list_elem_of_further.
  - apply Hno. apply list_elem_of_here.
Qed.

Lemma or_zero_aggregate_sum (l : list Q) :
  (or_zero (aggregate_sum l) == sum_amounts l)%Q.
Proof.
  destruct l as [|q l]; [reflexivity|].
  unfold aggregate_sum, or_zero, decimal_truthy.
  destruct (Qeq_bool (sum_amounts (q :: l)) 0) eqn:E; simpl.
  - apply Qeq_bool_iff in E. now rewrite E.
  - reflexivity.
Qed.

(** A transaction whose status is none of the six: no bucket of the
    report counts it either. *)
Definition is_other (x : nat * MpesaTransaction) : Prop :=
  ~ valid_status (status (snd x)).

Global Instance is_other_dec x : Decision (is_other x).
Proof. unfold is_other, valid_status. apply _. Defined.








(** A day with one payment whose callback reported result code 0. *)
Definition paid : MpesaTransaction :=
  {| status := "completed"; result_code := Some 0; result_desc := "";
     amount := 250; checkout_request_id := "ws_CO_2";
     initiated_at := 30 * hour; failed_at := None |}.

Definition one_paid : gmap nat MpesaTransaction := {[ 1%nat := paid ]}.






(** *** The callback task and its retries *)

(** The exceptions that travel through the task body; all of them are
    subclasses of [Exception]. *)
Inductive exn :=
| ProcessorError
| Retry (when : Z)
| MaxRetriesExceededError.

(** A retry message on the queue: the task is run again after
    [countdown] seconds with [request.retries = retries]. *)
Record message := {
  countdown : Z;
  retries : nat
}.

(** [@shared_task(bind=True, max_retries=3, default_retry_delay=30)] *)
Definition max_retries : nat := 3.

(** [self.retry(exc=exc, countdown=countdown)] of the task framework,
    called in a worker with [self.request.retries = r]: past
    [max_retries] it sends nothing and raises [exc] when one is given
    and [MaxRetriesExceededError] otherwise; else it sends the retry
    message and raises [Retry].  It returns the exception for the
    caller's [raise] and the messages sent so far. *)
Definition retry (r : nat) (exc : option exn) (countdown : Z)
    (sent : list message) : exn * list message :=
  if (max_retries <? S r)%nat then
    (match exc with
     | Some e => e
     | None => MaxRetriesExceededError
     end, sent)
  else
    (Retry countdown,
     sent ++ [{| countdown := countdown; retries := S r |}]).

(** What [MpesaCallbackProcessor.process_stk_callback] does on a
    callback: it returns its success flag or raises. *)
Inductive processed :=
| Success (flag : bool)
| Raises.

Inductive outcome :=
| TaskReturns (status message : string)
| TaskRaises (e : exn).

(** [process_mpesa_callback_task] run with [self.request.retries = r]:
    the [try] body first, then the [except Exception] handler, which
    also sees what the body's own [raise self.retry(...)] raised. *)
Definition process_mpesa_callback_task (r : nat) (p : processed)
  : outcome * list message :=
  let body : (outcome + exn) * list message :=
    match p with
    | Raises => (inr ProcessorError, [])
    | Success false =>
        let (e, sent) := retry r None (30 * 2 ^ Z.of_nat r) [] in
        (inr e, sent)
    | Success true =>
        (inl (TaskReturns "success" "Callback processed"), [])
    end in
  match body with
  | (inl result, sent) => (result, sent)
  | (inr exc, sent) =>
      let (e, sent') := retry r (Some exc) (60 * 2 ^ Z.of_nat r) sent in
      (TaskRaises e, sent')
  end.

(** The number of times the task runs for one callback, this run
    included, when the processor keeps giving the same answer. *)
Fixpoint executions (fuel : nat) (p : processed) (r : nat) : nat :=
  match fuel with
  | O => O
  | S fuel' =>
      S (foldr Nat.add O
           ((fun m => executions fuel' p (retries m))
              <$> snd (process_mpesa_callback_task r p)))
  end.

Lemma callback_success_no_retry (r : nat) :
  process_mpesa_callback_task r (Success true)
  = (TaskReturns "success" "Callback processed", []).
Proof. reflexivity. Qed.

Lemma callback_exception_retries_once (r : nat) :
  (r < max_retries)%nat ->
  snd (process_mpesa_callback_task r Raises)
  = [{| countdown := 60 * 2 ^ Z.of_nat r; retries := S r |}].
Proof.
  intros Hr. unfold process_mpesa_callback_task, retry.
  destruct (Nat.ltb_spec max_retries (S r)); [lia|reflexivity].
Qed.

Lemma callback_gives_up (p : processed) :
  snd (process_mpesa_callback_task max_retries p) = [].
Proof. destruct p as [[|]|]; reflexivity. Qed.

Lemma callback_retries_bounded (r : nat) (p : processed) (m : message) :
  (r <= max_retries)%nat ->
  m ∈ snd (process_mpesa_callback_task r p) ->
  (retries m <= max_retries)%nat.
Proof.
  intros Hr. unfold process_mpesa_callback_task, retry.
  destruct p as [[|]|]; simpl;
    destruct (Nat.ltb_spec max_retries (S r)); simpl;
    rewrite ?elem_of_cons, ?elem_of_nil; intuition (subst; simpl; lia).
Qed.

(** C5 on the code.  When the processor reports a failure (returns
    false) before the last retry, the task sends two retry messages,
    not one: the [Retry] raised by [raise self.retry(countdown=30 * ...)]
    inside the [try] is caught by [except Exception], whose
    [self.retry(exc=exc, countdown=60 * ...)] sends a second message. *)
Theorem callback_failure_schedules_two_retries (r : nat) :
  (r < max_retries)%nat ->
  snd (process_mpesa_callback_task r (Success false))
  = [{| countdown := 30 * 2 ^ Z.of_nat r; retries := S r |};
     {| countdown := 60 * 2 ^ Z.of_nat r; retries := S r |}].
Proof.
  intros Hr. unfold process_mpesa_callback_task, retry.
  destruct (Nat.ltb_spec max_retries (S r)); [lia|reflexivity].
Qed.

Lemma callback_failure_schedules_two_retries_witness :
  snd (process_mpesa_callback_task 0 (Success false))
  = [{| countdown := 30; retries := 1 |};
     {| countdown := 60; retries := 1 |}].
Proof.
  apply (callback_failure_schedules_two_retries 0).
  unfold max_retries. lia.
Defined.

(** A callback whose processing keeps raising is run four times; one
    whose processing keeps reporting failure is run fifteen times. *)
Example executions_when_raising : executions 5 Raises 0 = 4%nat.
Proof. reflexivity. Qed.

Example executions_when_failing : executions 5 (Success false) 0 = 15%nat.
Proof. reflexivity. Qed.

End Payments.

(** ** The writers of [Product.stock_quantity] *)

Module Stock.

(** The columns of a product row that the stock writers read. *)
Record product_row := {
  stock_quantity : Z;
  is_active : bool
}.

(** A row of [WarehouseStock].  [inventory/models.py] is not among the
    sources: the rows are taken as they are found in the database. *)
Module Warehouse.
Record WarehouseStock := {
  product : nat;
  quantity : Z
}.
End Warehouse.

(** A row of [OrderItem]. *)
Module Item.
Record OrderItem := {
  order : nat;
  product : nat;
  quantity : Z
}.
End Item.

Record state := {
  products : gmap nat product_row;
  warehouse_stocks : list Warehouse.WarehouseStock;
  order_items : list Item.OrderItem
}.

Definition set_stock (r : product_row) (n : Z) : product_row :=
  {| stock_quantity := n; is_active := is_active r |}.

Definition with_products (st : state) (m : gmap nat product_row) : state :=
  {| products := m;
     warehouse_stocks := warehouse_stocks st;
     order_items := order_items st |}.

(** *** orders/serializers.py: placing an order *)

(** An entry of [validated_items]: the product instance as it was read,
    and the quantity. *)
Record validated_item := {
  product_id : nat;
  product : product_row;
  quantity : Z
}.

(** The loop of [validate_items]; [None] is a [ValidationError]. *)
Fixpoint validate_items_loop (db : gmap nat product_row)
    (value : list (nat * Z)) (validated_items : list validated_item)
  : option (list validated_item) :=
  match value with
  | [] => Some validated_items
  | (id, qty) :: value' =>
      if qty <? 1 then None
      else
        match db !! id with
        | None => None
        | Some p =>
            if negb (is_active p) then None
            else if stock_quantity p <? qty then None
            else
              validate_items_loop db value'
                (validated_items
                 ++ [{| product_id := id; product := p; quantity := qty |}])
        end
  end.

Definition validate_items (db : gmap nat product_row)
    (value : list (nat * Z)) : option (list validated_item) :=
  match value with
  | [] => None
  | _ => validate_items_loop db value []
  end.

(** The loop of [create] over the validated items: the order item is
    inserted, then [product.stock_quantity -= quantity; product.save()]
    on the instance that was validated. *)
Definition create_item (order : nat) (st : state) (it : validated_item)
  : state :=
  {| products :=
       <[product_id it :=
           set_stock (product it) (stock_quantity (product it) - quantity it)]>
         (products st);
     warehouse_stocks := warehouse_stocks st;
     order_items :=
       order_items st
       ++ [{| Item.order := order; Item.product := product_id it;
              Item.quantity := quantity it |}] |}.

Definition create (order : nat) (items_data : list validated_item)
    (st : state) : state :=
  foldl (create_item order) st items_data.

(** A request to place an order: validation, then creation; a rejected
    request changes nothing. *)
Definition place_order (order : nat) (value : list (nat * Z)) (st : state)
  : state :=
  match validate_items (products st) value with
  | Some items_data => create order items_data st
  | None => st
  end.

(** *** orders/tasks.py: cancelling unpaid orders *)

(** [item.product.stock_quantity += item.quantity; item.product.save()],
    the product being read when [item.product] is first used. *)
Definition restock_item (st : state) (item : Item.OrderItem) : state :=
  match products st !! Item.product item with
  | Some p =>
      with_products st
        (<[Item.product item :=
             set_stock p (stock_quantity p + Item.quantity item)]>
           (products st))
  | None => st
  end.

(** The restocking of [auto_cancel_unpaid_orders] for the orders the
    task selected. *)
Definition auto_cancel_unpaid_orders (orders_to_cancel : list nat)
    (st : state) : state :=
  foldl
    (fun st o =>
       foldl restock_item st
         (filter (fun item => Item.order item = o) (order_items st)))
    st orders_to_cancel.

(** *** products/views.py and products/serializers.py *)

(** The [update_stock] action: a negative quantity is answered with
    400. *)
Definition update_stock (id : nat) (qty : Z) (st : state) : state :=
  match products st !! id with
  | None => st
  | Some p =>
      if qty <? 0 then st
      else with_products st (<[id := set_stock p qty]> (products st))
  end.

(** [validate_stock_quantity] of the create/update serializer. *)
Definition validate_stock_quantity (value : Z) : option Z :=
  if value <? 0 then None else Some value.

Definition save_product (id : nat) (p : product_row) (st : state) : state :=
  match validate_stock_quantity (stock_quantity p) with
  | Some _ => with_products st (<[id := p]> (products st))
  | None => st
  end.

(** *** inventory/tasks.py and [Product.update_from_warehouse_stock] *)

(** [WarehouseStock.objects.filter(product=p)
       .aggregate(total=Sum('quantity'))['total'] or 0] *)
Definition aggregate_total (rows : list Warehouse.WarehouseStock) : option Z :=
  match rows with
  | [] => None
  | _ => Some (foldr Z.add 0 (Warehouse.quantity <$> rows))
  end.

Definition warehouse_total (id : nat) (st : state) : Z :=
  match aggregate_total
          (filter (fun w => Warehouse.product w = id) (warehouse_stocks st))
  with
  | Some total => if total =? 0 then 0 else total
  | None => 0
  end.

(** [save(update_fields=['stock_quantity'])]: only that column of the
    row is written. *)
Definition save_stock_quantity (id : nat) (n : Z) (st : state) : state :=
  with_products st (alter (fun p => set_stock p n) id (products st)).

(** One iteration of the sync loop, on a product read by
    [Product.objects.all()]. *)
Definition sync_one (st : state) (x : nat * product_row) : state :=
  let total_stock := warehouse_total (fst x) st in
  if bool_decide (stock_quantity (snd x) <> total_stock)
  then save_stock_quantity (fst x) total_stock st
  else st.

Definition sync_product_stock_from_warehouses (st : state) : state :=
  foldl sync_one st (map_to_list (products st)).

Definition update_from_warehouse_stock (id : nat) (st : state) : state :=
  match products st !! id with
  | Some _ => save_stock_quantity id (warehouse_total id st) st
  | None => st
  end.

(** *** The system as a transition system *)

Inductive request :=
| PlaceOrder (order : nat) (value : list (nat * Z))
| AutoCancelUnpaidOrders (orders_to_cancel : list nat)
| UpdateStock (id : nat) (qty : Z)
| SaveProduct (id : nat) (p : product_row)
| SyncProductStockFromWarehouses
| UpdateFromWarehouseStock (id : nat).

Definition step (st : state) (r : request) : state :=
  match r with
  | PlaceOrder order value => place_order order value st
  | AutoCancelUnpaidOrders orders => auto_cancel_unpaid_orders orders st
  | UpdateStock id qty => update_stock id qty st
  | SaveProduct id p => save_product id p st
  | SyncProductStockFromWarehouses => sync_product_stock_from_warehouses st
  | UpdateFromWarehouseStock id => update_from_warehouse_stock id st
  end.

Definition run (rs : list request) (st : state) : state :=
  foldl step st rs.





(** *** Each writer keeps the invariant *)























(** A shop with five units of product 1, seven in two warehouses, and
    no order yet: an order that names the product twice, a sync, and
    the cancellation of the order. *)
Definition shop : state :=
  {| products := {[ 1%nat := {| stock_quantity := 5; is_active := true |} ]};
     warehouse_stocks :=
       [ {| Warehouse.product := 1; Warehouse.quantity := 3 |};
         {| Warehouse.product := 1; Warehouse.quantity := 4 |} ];
     order_items := [] |}.

Definition day_of_requests : list request :=
  [ PlaceOrder 1 [(1%nat, 3); (1%nat, 3)];
    SyncProductStockFromWarehouses;
    AutoCancelUnpaidOrders [1%nat] ].

Example place_order_twice_the_same_product :
  stock_quantity <$> (products (run [PlaceOrder 1 [(1%nat, 3); (1%nat, 3)]] shop)
                      !! 1%nat)
  = Some 2.
Proof. vm_compute. reflexivity. Qed.

Example day_of_requests_stock :
  stock_quantity <$> (products (run day_of_requests shop) !! 1%nat)
  = Some 13.
Proof. vm_compute. reflexivity. Qed.

End Stock.

(** ** products/models.py, products/filters.py: availability *)

Module Availability.

(** [ProductFilter.filter_in_stock] on a queryset of products. *)
Definition filter_in_stock (value : bool) (queryset : gmap nat Products.Product)
  : gmap nat Products.Product :=
  if value
  then filter (fun kv => 0 < Products.stock_quantity (snd kv)) queryset
  else filter (fun kv => Products.stock_quantity (snd kv) = 0) queryset.

(** [ProductFilter.filter_low_stock]; the same lookup is the queryset of
    [check_low_stock_products]. *)
Definition filter_low_stock (value : bool) (queryset : gmap nat Products.Product)
  : gmap nat Products.Product :=
  if value
  then filter
         (fun kv =>
            Products.stock_quantity (snd kv)
            <= Products.low_stock_threshold (snd kv)
            /\ 0 < Products.stock_quantity (snd kv))
         queryset
  else queryset.

(** A product can be bought exactly when its stock status is not one of
    the two out-of-stock statuses. *)
Theorem can_purchase_iff_stock_status (p : Products.Product) :
  Products.can_purchase p = true <->
  Products.stock_status p <> "out_of_stock"%string
  /\ Products.stock_status p <> "out_of_stock_restock_scheduled"%string.
Proof.
  unfold Products.can_purchase, Products.stock_status.
  destruct (Products.is_in_stock p), (Products.is_low_stock p),
    (Products.preorder_available p), (Products.backorder_allowed p),
    (Products.restock_date p); simpl;
    split; try (intros _; split; discriminate); try reflexivity;
    try discriminate; intros [H1 H2]; exfalso;
    first [now apply H1 | now apply H2].
Qed.

(** The in-stock filter returns the products whose [is_in_stock] is
    true.  While no stock quantity is negative, the out-of-stock filter
    returns all the others, so the two filters split the queryset; a
    product whose stock quantity is negative is returned by neither. *)
Theorem filter_in_stock_agrees (queryset : gmap nat Products.Product) :
  (forall id p,
     filter_in_stock true queryset !! id = Some p <->
     queryset !! id = Some p /\ Products.is_in_stock p = true) /\
  (forall id p,
     queryset !! id = Some p -> Products.stock_quantity p < 0 ->
     filter_in_stock true queryset !! id = None
     /\ filter_in_stock false queryset !! id = None) /\
  ((forall id p, queryset !! id = Some p -> 0 <= Products.stock_quantity p) ->
   forall id p,
     filter_in_stock false queryset !! id = Some p <->
     queryset !! id = Some p /\ Products.is_in_stock p = false).
Proof.
  unfold filter_in_stock, Products.is_in_stock. split; [|split].
  - intros id p. rewrite map_lookup_filter_Some. simpl.
    rewrite Z.ltb_lt. reflexivity.
  - intros id p Hp Hneg. split; apply map_lookup_filter_None; right;
      intros q Hq; rewrite Hp in Hq; injection Hq as <-; simpl; lia.
  - intros Hnonneg id p. rewrite map_lookup_filter_Some. simpl.
    rewrite Z.ltb_ge. split.
    + intros [Hp Hz]. split; [exact Hp | lia].
    + intros [Hp Hz]. split; [exact Hp|]. specialize (Hnonneg id p Hp). lia.
Qed.

Lemma filter_in_stock_agrees_witness :
  filter_in_stock false {[ 1%nat := Products.with_stock Products.headphones 0 ]}
    !! 1%nat
  = Some (Products.with_stock Products.headphones 0).
Proof.
  destruct (filter_in_stock_agrees
              {[ 1%nat := Products.with_stock Products.headphones 0 ]})
    as (_ & _ & Hout).
  apply Hout.
  - intros id p Hp. apply lookup_singleton_Some in Hp as [_ <-]. simpl. lia.
  - split; [apply lookup_singleton_eq | reflexivity].
Defined.

(** The low-stock filter returns the products whose [is_low_stock] is
    true, and every one of them is also returned by the in-stock
    filter. *)
Theorem filter_low_stock_agrees (queryset : gmap nat Products.Product) :
  (forall id p,
     filter_low_stock true queryset !! id = Some p <->
     queryset !! id = Some p /\ Products.is_low_stock p = true) /\
  (forall id p,
     filter_low_stock true queryset !! id = Some p ->
     filter_in_stock true queryset !! id = Some p).
Proof.
  unfold filter_low_stock, filter_in_stock, Products.is_low_stock. split.
  - intros id p. rewrite map_lookup_filter_Some. simpl.
    rewrite andb_true_iff, Z.ltb_lt, Z.leb_le. tauto.
  - intros id p. rewrite !map_lookup_filter_Some. simpl. tauto.
Qed.

End Availability.

(** ** products/serializers.py: validation of a product's prices *)

Module Pricing.

(** The keys of [data] that [ProductCreateUpdateSerializer.validate]
    reads; [None] is a key that is absent or null. *)
Record product_data := {
  price : option Q;
  cost_price : option Q;
  sale_price : option Q;
  sale_starts_at : option Z;
  sale_ends_at : option Z;
  discount_percentage : option Q;
  preorder_available : option bool;
  preorder_release_date : option Z;
  warranty_period : option Z;
  publish_date : option Z
}.

(** [validate_price]: [None] is a [ValidationError]. *)
Definition validate_price (value : Q) : option Q :=
  if Qle_bool value 0 then None else Some value.

Definition Qlt_bool (x y : Q) : bool := negb (Qle_bool y x).

(** [a and b and a > b] on two nullable decimals. *)
Definition both_and (test : Q -> Q -> bool) (a b : option Q) : bool :=
  decimal_truthy a && decimal_truthy b
  && test (default 0%Q a) (default 0%Q b).

(** [ProductCreateUpdateSerializer.validate]: the name of the field the
    error is raised for, or the data. *)
Definition validate (data : product_data) (now : Z)
  : string + product_data :=
  if both_and (fun c p => Qlt_bool p c) (cost_price data) (price data)
  then inl "cost_price"%string
  else if both_and (fun s p => Qle_bool p s) (sale_price data) (price data)
  then inl "sale_price"%string
  else if match sale_starts_at data, sale_ends_at data with
          | Some s, Some e => e <=? s
          | _, _ => false
          end
  then inl "sale_ends_at"%string
  else if Qlt_bool (default 0%Q (discount_percentage data)) 0
          || Qlt_bool 100 (default 0%Q (discount_percentage data))
  then inl "discount_percentage"%string
  else if default false (preorder_available data)
          && negb (datetime_truthy (preorder_release_date data))
  then inl "preorder_release_date"%string
  else if default 0 (warranty_period data) <? 0
  then inl "warranty_period"%string
  else if match publish_date data with
          | Some d => d <? now
          | None => false
          end
  then inl "publish_date"%string
  else inr data.

(** The product row holds the prices of the data. *)
Definition stores (p : Products.Product) (data : product_data) : Prop :=
  Some (Products.price p) = price data
  /\ Products.sale_price p = sale_price data
  /\ Products.discount_percentage p
     = default 0%Q (discount_percentage data).

Lemma Qlt_bool_false (x y : Q) : Qlt_bool x y = false <-> (y <= x)%Q.
Proof.
  unfold Qlt_bool. rewrite negb_false_iff. apply Qle_bool_iff.
Qed.

Lemma Qle_bool_false (x y : Q) : Qle_bool x y = false <-> (y < x)%Q.
Proof.
  split.
  - intros H. apply Qnot_le_lt. intros Hle.
    apply Qle_bool_iff in Hle. congruence.
  - intros H. destruct (Qle_bool x y) eqn:E; [|reflexivity].
    apply Qle_bool_iff in E. exfalso. eapply Qlt_not_le; eauto.
Qed.

Lemma discounted_le (p d : Q) :
  (0 < p)%Q -> (0 <= d)%Q -> (d <= 100)%Q ->
  (0 <= p - p * d / 100 /\ p - p * d / 100 <= p)%Q.
Proof.
  intros Hp Hd Hd'.
  assert (H0 : (0 <= p * d / 100)%Q).
  { apply Qle_shift_div_l; [reflexivity|]. rewrite Qmult_0_l.
    apply Qmult_le_0_compat; [now apply Qlt_le_weak | assumption]. }
  assert (H1 : (p * d / 100 <= p)%Q).
  { apply Qle_shift_div_r; [reflexivity|].
    rewrite (Qmult_comm p d), (Qmult_comm p 100).
    apply Qmult_le_compat_r; [assumption | now apply Qlt_le_weak]. }
  revert H0 H1. generalize (p * d / 100)%Q. intros x H0 H1.
  split; lra.
Qed.

(** A product whose data passed [validate_price] and [validate] never
    sells above its regular price: at every time its current price is at
    most [price], its final price is between 0 and [price], and its
    savings amount is not negative. *)
Theorem validated_price_bounds
    (data : product_data) (now : Z) (p : Products.Product) (t : Z) :
  (exists pr, price data = Some pr /\ validate_price pr = Some pr) ->
  validate data now = inr data ->
  stores p data ->
  (Products.current_price p t <= Products.price p)%Q
  /\ (0 <= Products.final_price p)%Q
  /\ (Products.final_price p <= Products.price p)%Q
  /\ (0 <= Products.savings_amount p t)%Q.
Proof.
  intros (pr & Hpr & Hvp) Hv (Hprice & Hsale & Hdisc).
  unfold validate_price in Hvp.
  destruct (Qle_bool pr 0) eqn:Hpos; [discriminate|].
  apply Qle_bool_false in Hpos.
  rewrite Hpr in Hprice. injection Hprice as Hprice.
  unfold validate in Hv.
  destruct (both_and _ (cost_price data) (price data)); [discriminate|].
  destruct (both_and _ (sale_price data) (price data)) eqn:Hs;
    [discriminate|].
  destruct (match sale_starts_at data with Some _ => _ | None => _ end);
    [discriminate|].
  destruct (Qlt_bool (default 0%Q (discount_percentage data)) 0
            || Qlt_bool 100 (default 0%Q (discount_percentage data)))
    eqn:Hd; [discriminate|].
  clear Hv. apply orb_false_iff in Hd as [Hd0 Hd100].
  apply Qlt_bool_false in Hd0, Hd100. rewrite <- Hdisc in Hd0, Hd100.
  assert (Hfinal : (0 <= Products.final_price p
                    /\ Products.final_price p <= Products.price p)%Q).
  { unfold Products.final_price.
    destruct (Qgt0 (Products.discount_percentage p)).
    - apply discounted_le; [now rewrite Hprice | assumption..].
    - rewrite Hprice. split; [now apply Qlt_le_weak | apply Qle_refl]. }
  assert (Hcur : (Products.current_price p t <= Products.price p)%Q).
  { unfold Products.current_price.
    destruct (Products.sale_price p) as [s|] eqn:Hsp; [|apply Hfinal].
    destruct (negb (Qeq_bool s 0) && Products.is_sale_active p t) eqn:Hb;
      [|apply Hfinal].
    apply andb_true_iff in Hb as [Hnz _].
    unfold both_and in Hs. rewrite <- Hsale, Hpr in Hs. simpl in Hs.
    rewrite Hnz in Hs. simpl in Hs.
    assert (Hprz : Qeq_bool pr 0 = false).
    { destruct (Qeq_bool pr 0) eqn:E; [|reflexivity].
      apply Qeq_bool_iff in E. rewrite E in Hpos.
      exfalso. now apply (Qlt_irrefl 0). }
    rewrite Hprz in Hs. simpl in Hs.
    apply Qle_bool_false in Hs. rewrite Hprice. now apply Qlt_le_weak. }
  split; [exact Hcur|]. split; [apply Hfinal|]. split; [apply Hfinal|].
  unfold Products.savings_amount. lra.
Qed.

(** The test product put on sale at 100 with a 20% discount. *)
Definition sale_data : product_data :=
  {| price := Some 150%Q; cost_price := Some 90%Q;
     sale_price := Some 100%Q;
     sale_starts_at := Some 900; sale_ends_at := Some 1100;
     discount_percentage := Some 20%Q;
     preorder_available := Some false; preorder_release_date := None;
     warranty_period := Some 12; publish_date := None |}.

Definition sale_product : Products.Product :=
  Products.with_discount
    (Products.with_sale Products.headphones
       (Some 100%Q) (Some 900) (Some 1100)) 20%Q.

Lemma validated_price_bounds_witness :
  (Products.current_price sale_product 1000 <= Products.price sale_product)%Q.
Proof.
  apply (validated_price_bounds sale_data 500 sale_product 1000).
  - exists 150%Q. split; reflexivity.
  - reflexivity.
  - repeat split.
Defined.

Lemma product_ext (p q : Products.Product) :
  Products.name p = Products.name q ->
  Products.slug p = Products.slug q ->
  Products.sku p = Products.sku q ->
  Products.price p = Products.price q ->
  Products.discount_percentage p = Products.discount_percentage q ->
  Products.sale_price p = Products.sale_price q ->
  Products.sale_starts_at p = Products.sale_starts_at q ->
  Products.sale_ends_at p = Products.sale_ends_at q ->
  Products.stock_quantity p = Products.stock_quantity q ->
  Products.low_stock_threshold p = Products.low_stock_threshold q ->
  Products.is_on_sale p = Products.is_on_sale q ->
  Products.preorder_available p = Products.preorder_available q ->
  Products.backorder_allowed p = Products.backorder_allowed q ->
  Products.restock_date p = Products.restock_date q ->
  p = q.
Proof.
  destruct p, q; simpl; intros; subst; reflexivity.
Qed.

(** The columns [Product.save] only reads or passes on. *)
Lemma save_keeps (slugify : string -> string) (p : Products.Product) (now : Z) :
  Products.name (Products.save slugify p now) = Products.name p
  /\ Products.sku (Products.save slugify p now) = Products.sku p
  /\ Products.price (Products.save slugify p now) = Products.price p
  /\ Products.discount_percentage (Products.save slugify p now)
     = Products.discount_percentage p
  /\ Products.sale_price (Products.save slugify p now) = Products.sale_price p
  /\ Products.sale_starts_at (Products.save slugify p now)
     = Products.sale_starts_at p
  /\ Products.sale_ends_at (Products.save slugify p now)
     = Products.sale_ends_at p
  /\ Products.stock_quantity (Products.save slugify p now)
     = Products.stock_quantity p
  /\ Products.low_stock_threshold (Products.save slugify p now)
     = Products.low_stock_threshold p
  /\ Products.preorder_available (Products.save slugify p now)
     = Products.preorder_available p
  /\ Products.backorder_allowed (Products.save slugify p now)
     = Products.backorder_allowed p
  /\ Products.restock_date (Products.save slugify p now)
     = Products.restock_date p.
Proof.
  unfold Products.save. destruct (negb (str_truthy (Products.slug p))); simpl;
    repeat match goal with
           | |- context [if ?b then _ else _] => destruct b; simpl
           end; repeat split; reflexivity.
Qed.

(** Saving a product twice in a row, at the same time, changes nothing
    more than saving it once: the slug generated by the first save is
    kept and the sale flag is not flipped back. *)
Theorem save_idempotent
    (slugify : string -> string) (p : Products.Product) (now : Z) :
  Products.save slugify (Products.save slugify p now) now
  = Products.save slugify p now.
Proof.
  pose proof (save_keeps slugify p now)
    as (Hn & Hk & Hp & Hd & Hs & Ha & He & Hq & Hl & Hpo & Hb & Hr).
  pose proof (save_keeps slugify (Products.save slugify p now) now)
    as (Hn' & Hk' & Hp' & Hd' & Hs' & Ha' & He' & Hq' & Hl' & Hpo' & Hb'
        & Hr').
  apply product_ext; try congruence.
  - rewrite (Products.save_slug slugify (Products.save slugify p now) now).
    rewrite Hn, Hk.
    rewrite (Products.save_slug slugify p now).
    destruct (String.eqb (Products.slug p) "") eqn:E.
    + match goal with
      | |- (if ?b then _ else _) = _ => destruct b; reflexivity
      end.
    + now rewrite E.
  - rewrite (Products.save_is_on_sale slugify
               (Products.save slugify p now) now).
    assert (Hact : Products.is_sale_active (Products.save slugify p now) now
                   = Products.is_sale_active p now).
    { unfold Products.is_sale_active. now rewrite Ha, He. }
    rewrite Hs, Hd, Hact.
    rewrite (Products.save_is_on_sale slugify p now).
    destruct (decimal_truthy (Products.sale_price p)
              && Products.is_sale_active p now); [reflexivity|].
    destruct (negb (decimal_truthy (Products.sale_price p))
              && Qeq_bool (Products.discount_percentage p) 0); reflexivity.
Qed.

End Pricing.

(** ** payments/tasks.py: what the sweeps queue and count *)

Module Sweeps.

Import Payments.

(** The two tasks the timeout sweep queues for a transaction. *)
Definition timeout_tasks (x : nat * MpesaTransaction) : list task_call :=
  [ send_payment_failed_notification (fst x);
    send_admin_payment_alert (Some (fst x)) "Transaction Timeout"
      ("Transaction " ++ checkout_request_id (snd x)
       ++ " timed out after 2 hours") ].

Lemma timeout_loop_outbox (clock : nat -> Z)
    (l : list (nat * MpesaTransaction)) :
  forall w c,
    outbox (fst (timeout_loop clock l w c))
    = outbox w ++ mjoin (timeout_tasks <$> l)
    /\ snd (timeout_loop clock l w c) = (c + length l)%nat.
Proof.
  induction l as [|[id t] l IH]; intros w c; simpl.
  - rewrite app_nil_r. split; [reflexivity | lia].
  - match goal with
    | |- context [timeout_loop clock l ?w' (S c)] =>
        destruct (IH w' (S c)) as [Hout Hcount]
    end.
    split.
    + rewrite Hout. simpl. rewrite <- !app_assoc. reflexivity.
    + rewrite Hcount. lia.
Qed.

(** The rows the sweep selects at a given reading of the clock. *)
Definition stuck_transactions (sweep_time : Z)
    (db : gmap nat MpesaTransaction) : list (nat * MpesaTransaction) :=
  objects_filter
    (fun t => status t = "processing"%string
              /\ initiated_at t <= sweep_time - two_hours)
    db.

(** The timeout sweep reports the number of transactions it timed out,
    and queues for each of them, and for no other transaction, one
    failure notification followed by one admin alert; what was queued
    before stays queued. *)
Theorem auto_timeout_notifies (clock : nat -> Z) (w : world) :
  let r := auto_timeout_stuck_transactions clock w in
  let stuck := stuck_transactions (clock (ticks w)) (transactions w) in
  snd r = length stuck
  /\ outbox (fst r) = outbox w ++ mjoin (timeout_tasks <$> stuck)
  /\ length (outbox (fst r)) = (length (outbox w) + 2 * snd r)%nat
  /\ (forall id,
        send_payment_failed_notification id ∈ outbox (fst r) <->
        send_payment_failed_notification id ∈ outbox w
        \/ exists t, transactions w !! id = Some t
                     /\ status t = "processing"%string
                     /\ initiated_at t <= clock (ticks w) - two_hours).
Proof.
  intros r stuck.
  destruct (timeout_loop_outbox clock stuck (snd (timezone_now clock w)) 0)
    as [Hout Hcount].
  assert (Hr : r = timeout_loop clock stuck (snd (timezone_now clock w)) 0)
    by reflexivity.
  rewrite <- Hr in Hout, Hcount. simpl in Hout, Hcount.
  split; [exact Hcount|]. split; [exact Hout|]. split.
  - rewrite Hout, Hcount, length_app. f_equal.
    clear. induction stuck as [|x l IH]; [reflexivity|].
    rewrite fmap_cons. simpl. rewrite IH. lia.
  - intros id. rewrite Hout, elem_of_app.
    apply or_iff_compat_l. rewrite list_elem_of_join. split.
    + intros (ts & Hin & Hts).
      apply list_elem_of_fmap in Hts as ([id' t] & -> & Hx).
      unfold timeout_tasks in Hin. simpl in Hin.
      apply elem_of_cons in Hin as [[= ->] | Hin].
      * unfold stuck, stuck_transactions in Hx.
        apply objects_filter_elem in Hx as (Ht & Hs & Hi). eauto.
      * apply list_elem_of_singleton in Hin. discriminate.
    + intros (t & Ht & Hs & Hi). exists (timeout_tasks (id, t)). split.
      * unfold timeout_tasks. simpl. apply list_elem_of_here.
      * apply list_elem_of_fmap. exists (id, t). split; [reflexivity|].
        unfold stuck, stuck_transactions. apply objects_filter_elem. auto.
Qed.

(** A row the sweep does not select is left as it is. *)
Lemma sweep_keeps (clock : nat -> Z) (w : world) (id : nat) :
  (forall t, transactions w !! id = Some t ->
             status t <> "processing"%string) ->
  transactions (fst (auto_timeout_stuck_transactions clock w)) !! id
  = transactions w !! id.
Proof.
  intros Hnot. unfold auto_timeout_stuck_transactions. simpl.
  rewrite timeout_loop_other; [reflexivity|]. intros Hin.
  apply objects_filter_key in Hin as (t & Ht & Hs & _).
  now apply (Hnot t).
Qed.

Lemma sweep_times_out (clock : nat -> Z) (w : world) (id : nat)
    (t : MpesaTransaction) :
  transactions w !! id = Some t ->
  status t = "processing"%string ->
  initiated_at t <= clock (ticks w) - two_hours ->
  exists n,
    transactions (fst (auto_timeout_stuck_transactions clock w)) !! id
    = Some (timed_out t (clock n)).
Proof.
  intros Ht Hs Hi. unfold auto_timeout_stuck_transactions. simpl.
  edestruct (timeout_loop_hit clock
               (objects_filter
                  (fun t => status t = "processing"%string
                            /\ initiated_at t <= clock (ticks w) - two_hours)
                  (transactions w))
               (snd (timezone_now clock w)) 0%nat id t) as (n & _ & Hn).
  - apply objects_filter_NoDup.
  - apply objects_filter_elem. auto.
  - exists n. exact Hn.
Qed.

(** A transaction is timed out once: a later sweep, at whatever time,
    leaves a transaction that an earlier sweep timed out as that sweep
    left it, so its [failed_at] is not overwritten. *)
Theorem timed_out_once (clock clock' : nat -> Z) (w : world) (id : nat)
    (t : MpesaTransaction) :
  transactions w !! id = Some t ->
  status t = "processing"%string ->
  initiated_at t <= clock (ticks w) - two_hours ->
  transactions
    (fst (auto_timeout_stuck_transactions clock'
            (fst (auto_timeout_stuck_transactions clock w)))) !! id
  = transactions (fst (auto_timeout_stuck_transactions clock w)) !! id.
Proof.
  intros Ht Hs Hi.
  destruct (sweep_times_out clock w id t Ht Hs Hi) as [n Hn].
  apply sweep_keeps. intros t' Ht'. rewrite Hn in Ht'.
  injection Ht' as <-. simpl. discriminate.
Qed.

Lemma timed_out_once_witness :
  transactions
    (fst (auto_timeout_stuck_transactions (fun _ => 20 * hour)
            (fst (auto_timeout_stuck_transactions (fun _ => 10 * hour)
                    sweep_world)))) !! 1%nat
  = transactions
      (fst (auto_timeout_stuck_transactions (fun _ => 10 * hour)
              sweep_world)) !! 1%nat.
Proof.
  apply (timed_out_once (fun _ => 10 * hour) (fun _ => 20 * hour)
           sweep_world 1%nat (tx "processing" (7 * hour))).
  - reflexivity.
  - reflexivity.
  - vm_compute. discriminate.
Defined.

(** In the reconciliation sweep every queued notification belongs to an
    updated transaction and every updated transaction was checked: the
    number of notifications is at most [updated_count], which is at most
    [checked_count]. *)
Theorem check_pending_counts
    (service_state : Type)
    (check_payment_status :
       string -> service_state -> check_result * service_state)
    (now : Z) (db : gmap nat MpesaTransaction) (s : service_state) :
  let r :=
    check_pending_transactions service_state check_payment_status now db s in
  (length (queue r) <= updated_count r)%nat
  /\ (updated_count r <= checked_count r)%nat.
Proof.
  unfold check_pending_transactions, check_loop.
  generalize (pending_transactions now db). intros l.
  set (a0 := {| service := s; queue := []; checked_count := 0;
                updated_count := 0 |}).
  assert (H0 : (length (queue a0) <= updated_count a0)%nat
               /\ (updated_count a0 <= checked_count a0)%nat)
    by (simpl; lia).
  revert H0. generalize a0. clear a0.
  induction l as [|x l IH]; intros a Ha; simpl; [exact Ha|].
  apply IH. destruct Ha as [Hq Hu]. unfold check_one.
  destruct (check_payment_status _ (service a)) as [[|[[uid u]|]] s1];
    simpl; try lia.
  destruct (negb (String.eqb (status u) "processing")); simpl; [|lia].
  destruct (String.eqb (status u) "completed");
    [rewrite length_app; simpl; lia|].
  destruct (bool_decide _); [rewrite length_app; simpl; lia | lia].
Qed.

End Sweeps.

(** ** payments/tasks.py: the e-mail tasks *)

Module Notifications.

(** What the task reads of the transaction: the e-mail address of the
    customer of its order and of its own customer, when there are. *)
Module Ord.
Record Order := {
  customer : option string
}.
End Ord.

Record transaction := {
  order : option Ord.Order;
  customer : option string
}.

(** "Determine recipient": the order's customer first, then the
    transaction's customer. *)
Definition recipient (t : transaction) : option string :=
  match order t with
  | Some o =>
      match Ord.customer o with
      | Some e => Some e
      | None => customer t
      end
  | None => customer t
  end.

(** The exceptions of the task body. *)
Inductive exn :=
| DoesNotExist
| SendError
| Retry (when : Z)
| MaxRetriesExceededError.

Inductive outcome :=
| TaskReturns (result : string)
| TaskRaises (e : exn).

(** [self.retry(exc=exc, countdown=countdown)] with
    [max_retries=3], as for the callback task. *)
Definition retry (r : nat) (exc : option exn) (countdown : Z)
    (sent : list Payments.message) : exn * list Payments.message :=
  if (Payments.max_retries <? S r)%nat then
    (match exc with
     | Some e => e
     | None => MaxRetriesExceededError
     end, sent)
  else
    (Retry countdown,
     sent ++ [{| Payments.countdown := countdown;
                 Payments.retries := S r |}]).

(** The result of a run: what it returned or raised, the addresses an
    e-mail went to, and the retry messages it sent. *)
Record run := {
  result : outcome;
  emails : list string;
  retries : list Payments.message
}.

(** [send_payment_confirmation_email] run with
    [self.request.retries = r]; [found] is what
    [MpesaTransaction.objects.get(id=transaction_id)] finds and
    [delivers e] tells whether rendering and sending the e-mail to [e]
    go through.  [send_payment_failed_notification] has the same body
    with another template and return message. *)
Definition send_payment_confirmation_email (r : nat)
    (found : option transaction) (delivers : string -> bool) : run :=
  match found with
  | None =>
      {| result := TaskRaises DoesNotExist; emails := []; retries := [] |}
  | Some t =>
      match recipient t with
      | None =>
          {| result := TaskReturns "No customer email available";
             emails := []; retries := [] |}
      | Some e =>
          if delivers e then
            {| result := TaskReturns ("Confirmation email sent to " ++ e);
               emails := [e]; retries := [] |}
          else
            let (exc, sent) :=
              retry r (Some SendError) (60 * 2 ^ Z.of_nat r) [] in
            {| result := TaskRaises exc; emails := []; retries := sent |}
      end
  end.

(** A run of the e-mail task sends at most one e-mail, to the order's
    customer when the order has one and else to the transaction's; it
    sends a retry message only when the e-mail could not be sent and
    [retries < 3], and then exactly one, with countdown
    [60 * 2 ** retries]; a transaction that does not exist is never
    retried. *)
Theorem email_task_retries_once (r : nat)
    (found : option transaction) (delivers : string -> bool) :
  let x := send_payment_confirmation_email r found delivers in
  (forall e, e ∈ emails x ->
     emails x = [e] /\ retries x = []
     /\ exists t, found = Some t /\ recipient t = Some e
                  /\ (forall o c, order t = Some o ->
                                  Ord.customer o = Some c -> e = c)) /\
  (retries x <> [] ->
     (r < Payments.max_retries)%nat
     /\ retries x = [{| Payments.countdown := 60 * 2 ^ Z.of_nat r;
                        Payments.retries := S r |}]
     /\ exists t e, found = Some t /\ recipient t = Some e
                    /\ delivers e = false) /\
  (found = None ->
     result x = TaskRaises DoesNotExist /\ emails x = [] /\ retries x = []).
Proof.
  unfold send_payment_confirmation_email, retry.
  destruct found as [t|]; simpl.
  - destruct (recipient t) as [e|] eqn:He; simpl.
    + destruct (delivers e) eqn:Hd; simpl.
      * split; [|split; [congruence | discriminate]].
        intros e' He'. apply list_elem_of_singleton in He' as ->.
        split; [reflexivity|]. split; [reflexivity|].
        exists t. split; [reflexivity|]. split; [exact He|].
        intros o c Ho Hc. unfold recipient in He. rewrite Ho, Hc in He.
        congruence.
      * destruct (Nat.ltb_spec Payments.max_retries (S r)) as [Hlt|Hge];
          simpl.
        -- split; [intros e' He'; inversion He'|].
           split; [congruence | discriminate].
        -- split; [intros e' He'; inversion He'|].
           split; [|discriminate]. intros _.
           split; [unfold Payments.max_retries in *; lia|].
           split; [reflexivity|]. eauto.
    + split; [intros e' He'; inversion He'|].
      split; [congruence | discriminate].
  - split; [intros e' He'; inversion He'|].
    split; [congruence | auto].
Qed.

(** A transaction of a guest order: the order has no customer, the
    transaction has one, and the mail server is down. *)
Definition guest_payment : transaction :=
  {| order := Some {| Ord.customer := None |};
     customer := Some "guest@example.com"%string |}.

Lemma email_task_retries_once_witness :
  retries (send_payment_confirmation_email 1 (Some guest_payment)
             (fun _ => false))
  = [{| Payments.countdown := 120; Payments.retries := 2 |}].
Proof.
  destruct (email_task_retries_once 1 (Some guest_payment) (fun _ => false))
    as (_ & Hretry & _).
  destruct Hretry as (_ & Hmsg & _); [discriminate | exact Hmsg].
Defined.

End Notifications.

(** ** Clean-up tasks *)

Module Cleanup.

(** [timedelta(days=90)] *)
Definition ninety_days : Z := 90 * 24 * Payments.hour.

(** A row of [MpesaCallback]. *)
Record MpesaCallback := {
  received_at : Z;
  is_processed : bool
}.

(** [cleanup_old_callbacks] in [payments/tasks.py]: the table it
    leaves. *)
Definition cleanup_old_callbacks (now : Z) (db : gmap nat MpesaCallback)
  : gmap nat MpesaCallback :=
  let cutoff_date := now - ninety_days in
  filter (fun kv => ~ (received_at (snd kv) < cutoff_date
                       /\ is_processed (snd kv) = true)) db.

(** A row of [StockAlert]; [resolved_at] is null until the alert is
    resolved. *)
Record StockAlert := {
  is_resolved : bool;
  resolved_at : option Z
}.

Definition old_alert (ninety_days_ago : Z) (a : StockAlert) : Prop :=
  is_resolved a = true
  /\ exists t, resolved_at a = Some t /\ t < ninety_days_ago.

Global Instance old_alert_dec c a : Decision (old_alert c a).
Proof.
  unfold old_alert. destruct (resolved_at a) as [t|].
  - destruct (decide (is_resolved a = true /\ t < c)) as [H|H].
    + left. destruct H. eauto.
    + right. intros (Hr & t' & [= <-] & Ht). tauto.
  - right. intros (_ & t' & Ht & _). discriminate.
Defined.

(** [cleanup_old_resolved_alerts] in [inventory/tasks.py]: the table it
    leaves and the count it reports ([old_alerts.count()], taken before
    the delete). *)
Definition cleanup_old_resolved_alerts (now : Z) (db : gmap nat StockAlert)
  : gmap nat StockAlert * nat :=
  let ninety_days_ago := now - ninety_days in
  let old_alerts := filter (fun kv => old_alert ninety_days_ago (snd kv)) db in
  (filter (fun kv => ~ old_alert ninety_days_ago (snd kv)) db,
   size old_alerts).

(** The callback clean-up deletes exactly the processed callbacks
    received more than 90 days ago: an unprocessed callback, or one
    received within the last 90 days, is never deleted, no row is
    altered, and a second run at the same time deletes nothing more. *)
Theorem cleanup_old_callbacks_keeps (now : Z) (db : gmap nat MpesaCallback) :
  (forall id c,
     cleanup_old_callbacks now db !! id = Some c <->
     db !! id = Some c
     /\ (is_processed c = false \/ now - ninety_days <= received_at c)) /\
  cleanup_old_callbacks now (cleanup_old_callbacks now db)
  = cleanup_old_callbacks now db.
Proof.
  assert (Hkeep : forall id c,
             cleanup_old_callbacks now db !! id = Some c <->
             db !! id = Some c
             /\ (is_processed c = false
                 \/ now - ninety_days <= received_at c)).
  { intros id c. unfold cleanup_old_callbacks.
    rewrite map_lookup_filter_Some. simpl.
    destruct (is_processed c); split; intros [Hc H]; split; try exact Hc.
    - right. lia.
    - destruct H as [H|H]; [discriminate | lia].
    - now left.
    - intros [_ H']. discriminate. }
  split; [exact Hkeep|].
  apply map_eq. intros id. apply option_eq. intros c.
  unfold cleanup_old_callbacks at 1. rewrite map_lookup_filter_Some. simpl.
  rewrite Hkeep. split.
  - tauto.
  - intros [Hc H]. split; [tauto|].
    intros [Hold Hp]. destruct H as [H|H]; [congruence | lia].
Qed.

(** The alert clean-up deletes exactly the resolved alerts whose
    [resolved_at] is more than 90 days old and reports how many: the
    count and the rows left add up to the rows before, and an
    unresolved alert, or one without a resolution date, is never
    deleted. *)
Theorem cleanup_old_resolved_alerts_count (now : Z)
    (db : gmap nat StockAlert) :
  (snd (cleanup_old_resolved_alerts now db)
   + size (fst (cleanup_old_resolved_alerts now db)) = size db)%nat /\
  (forall id a,
     db !! id = Some a ->
     is_resolved a = false \/ resolved_at a = None ->
     fst (cleanup_old_resolved_alerts now db) !! id = Some a) /\
  (forall id a,
     fst (cleanup_old_resolved_alerts now db) !! id = Some a ->
     db !! id = Some a).
Proof.
  unfold cleanup_old_resolved_alerts. simpl. split; [|split].
  - rewrite <- map_size_disj_union
      by apply map_disjoint_filter_complement.
    now rewrite map_filter_union_complement.
  - intros id a Ha Hnot. apply map_lookup_filter_Some. split; [exact Ha|].
    simpl. intros (Hr & t & Ht & _).
    destruct Hnot as [H|H]; congruence.
  - intros id a Hin. now apply map_lookup_filter_Some in Hin as [Ha _].
Qed.

End Cleanup.

(** ** inventory/tasks.py: what the warehouse sync writes *)

Module WarehouseSync.

Import Stock.











End WarehouseSync.

(** ** The stock invariant, writer by writer *)

Module StockInvariant.

Import Stock.















End StockInvariant.

(** ** orders/serializers.py, orders/tasks.py: placing and cancelling *)

Module OrderStock.

Import Stock.

(** What [validate_items] makes of one item. *)
Definition check_item (db : gmap nat product_row) (x : nat * Z)
  : option validated_item :=
  if snd x <? 1 then None
  else
    match db !! fst x with
    | None => None
    | Some p =>
        if negb (is_active p) then None
        else if stock_quantity p <? snd x then None
        else Some {| product_id := fst x; product := p; quantity := snd x |}
    end.

Lemma validate_items_loop_cons (db : gmap nat product_row)
    (x : nat * Z) (value : list (nat * Z)) (acc : list validated_item) :
  validate_items_loop db (x :: value) acc
  = match check_item db x with
    | Some it => validate_items_loop db value (acc ++ [it])
    | None => None
    end.
Proof.
  destruct x as [id qty]. unfold check_item. simpl.
  destruct (qty <? 1); [reflexivity|].
  destruct (db !! id) as [p|]; [|reflexivity].
  destruct (negb (is_active p)); [reflexivity|].
  destruct (stock_quantity p <? qty); reflexivity.
Qed.

Lemma mapM_cons {A B} (f : A -> option B) (x : A) (l : list A) :
  mapM f (x :: l)
  = match f x with
    | Some y =>
        match mapM f l with
        | Some k => Some (y :: k)
        | None => None
        end
    | None => None
    end.
Proof.
  change (mapM f (x :: l))
    with (f x ≫= fun y => mapM f l ≫= fun k => mret (y :: k)).
  destruct (f x); [|reflexivity]. simpl.
  destruct (mapM f l); reflexivity.
Qed.

Lemma validate_items_loop_mapM (db : gmap nat product_row)
    (value : list (nat * Z)) :
  forall acc,
    validate_items_loop db value acc
    = (fun l => acc ++ l) <$> mapM (check_item db) value.
Proof.
  induction value as [|x value IH]; intros acc.
  - simpl. now rewrite app_nil_r.
  - rewrite validate_items_loop_cons, mapM_cons.
    destruct (check_item db x) as [it|]; [|reflexivity].
    rewrite IH. destruct (mapM (check_item db) value) as [l|]; simpl;
      [|reflexivity].
    now rewrite <- app_assoc.
Qed.

(** An item that [validate_items] lets through. *)
Definition acceptable (db : gmap nat product_row) (x : nat * Z) : Prop :=
  1 <= snd x
  /\ exists p, db !! fst x = Some p /\ is_active p = true
               /\ snd x <= stock_quantity p.

Lemma check_item_Some (db : gmap nat product_row) (x : nat * Z)
    (it : validated_item) :
  check_item db x = Some it <->
  acceptable db x /\ product_id it = fst x /\ quantity it = snd x
  /\ db !! fst x = Some (product it).
Proof.
  unfold check_item, acceptable. destruct x as [id qty]. simpl.
  destruct (Z.ltb_spec qty 1) as [Hq|Hq].
  { split; [discriminate | intros [[H _] _]; lia]. }
  destruct (db !! id) as [p|].
  2: { split; [discriminate|]. intros (_ & _ & _ & H). discriminate. }
  destruct (is_active p) eqn:Ha; simpl.
  2: { split; [discriminate|].
       intros ((_ & p' & [= <-] & Ha' & _) & _). congruence. }
  destruct (Z.ltb_spec (stock_quantity p) qty) as [Hs|Hs].
  { split; [discriminate|].
    intros ((_ & p' & [= <-] & _ & Hs') & _). lia. }
  split.
  - intros [= <-]. simpl. repeat split; eauto.
  - intros (_ & Hid & Hqty & [= Hp]). destruct it as [i p' q].
    simpl in *. now subst.
Qed.

Lemma check_item_None (db : gmap nat product_row) (x : nat * Z) :
  check_item db x = None <-> ~ acceptable db x.
Proof.
  split.
  - intros Hnone Hacc.
    destruct Hacc as (Hq & p & Hp & Ha & Hs).
    unfold check_item in Hnone. rewrite Hp, Ha in Hnone. simpl in Hnone.
    destruct (Z.ltb_spec (snd x) 1); [lia|].
    destruct (Z.ltb_spec (stock_quantity p) (snd x)); [lia | discriminate].
  - intros Hnot. destruct (check_item db x) as [it|] eqn:E; [|reflexivity].
    exfalso. apply Hnot. now apply check_item_Some in E as [H _].
Qed.

Lemma validate_items_mapM (db : gmap nat product_row)
    (value : list (nat * Z)) :
  value <> [] ->
  validate_items db value = mapM (check_item db) value.
Proof.
  intros Hne. unfold validate_items.
  destruct value as [|x value]; [contradiction|].
  rewrite validate_items_loop_mapM.
  destruct (mapM (check_item db) (x :: value)); reflexivity.
Qed.

Lemma validate_items_Some_inv (db : gmap nat product_row)
    (value : list (nat * Z)) (items_data : list validated_item) :
  validate_items db value = Some items_data ->
  (fun it => (product_id it, quantity it)) <$> items_data = value
  /\ forall it, it ∈ items_data ->
                db !! product_id it = Some (product it).
Proof.
  intros Hsome.
  destruct value as [|x0 value0] eqn:Hv; [discriminate|].
  rewrite <- Hv in *.
  rewrite validate_items_mapM in Hsome by (rewrite Hv; discriminate).
  apply mapM_Some in Hsome. clear Hv.
  induction Hsome as [|x it value items_data Hx _ IH].
  - split; [reflexivity|]. intros it Hit. inversion Hit.
  - apply check_item_Some in Hx as (_ & Hid & Hq & Hp).
    destruct IH as [IHv IHp]. split.
    + rewrite fmap_cons, IHv, Hid, Hq. now destruct x.
    + intros it' Hit'. apply elem_of_cons in Hit' as [-> | Hit'].
      * now rewrite Hid.
      * now apply IHp.
Qed.

(** [validate_items] rejects an order exactly when it is empty or one
    of its items is not acceptable (a quantity below 1, a product that
    is missing or inactive, or more units than are in stock); what it
    accepts are the given items, in their order, each with the product
    as the table has it. *)
Theorem validate_items_accepts (db : gmap nat product_row)
    (value : list (nat * Z)) :
  (validate_items db value = None <->
   value = [] \/ exists x, x ∈ value /\ ~ acceptable db x) /\
  (forall items_data,
     validate_items db value = Some items_data ->
     (fun it => (product_id it, quantity it)) <$> items_data = value
     /\ forall it, it ∈ items_data ->
                   db !! product_id it = Some (product it)).
Proof.
  split; [|apply validate_items_Some_inv].
  destruct value as [|x0 value0] eqn:Hv.
  { split; [now left | reflexivity]. }
  rewrite <- Hv in *.
  rewrite validate_items_mapM by (rewrite Hv; discriminate).
  rewrite mapM_None. split.
  - intros Hex. right. apply Exists_exists in Hex as (x & Hin & Hnone).
    exists x. split; [exact Hin|]. now apply check_item_None.
  - intros [Hnil | (x & Hin & Hnot)]; [rewrite Hv in Hnil; discriminate|].
    apply Exists_exists. exists x. split; [exact Hin|].
    now apply check_item_None.
Qed.

(** The order item [create] inserts for a validated item. *)
Definition to_item (order : nat) (it : validated_item) : Item.OrderItem :=
  {| Item.order := order; Item.product := product_id it;
     Item.quantity := quantity it |}.

Lemma create_order_items (order : nat) (items_data : list validated_item) :
  forall st,
    order_items (create order items_data st)
    = order_items st ++ (to_item order <$> items_data).
Proof.
  unfold create. induction items_data as [|it l IH]; intros st; simpl.
  - now rewrite app_nil_r.
  - rewrite IH. simpl. now rewrite <- app_assoc.
Qed.

Lemma create_other (order : nat) (items_data : list validated_item) :
  forall st id,
    id ∉ product_id <$> items_data ->
    products (create order items_data st) !! id = products st !! id.
Proof.
  unfold create. induction items_data as [|it l IH]; intros st id Hnot; simpl.
  - reflexivity.
  - rewrite fmap_cons in Hnot. apply not_elem_of_cons in Hnot as [Hne Hl].
    rewrite IH by assumption. simpl. now rewrite lookup_insert_ne.
Qed.

Lemma create_hit (order : nat) (items_data : list validated_item) :
  forall st it,
    NoDup (product_id <$> items_data) -> it ∈ items_data ->
    products (create order items_data st) !! product_id it
    = Some (set_stock (product it)
              (stock_quantity (product it) - quantity it)).
Proof.
  induction items_data as [|it0 l IH]; intros st it Hnd Hin.
  - inversion Hin.
  - rewrite fmap_cons in Hnd. apply NoDup_cons in Hnd as [Hfresh Hnd].
    apply elem_of_cons in Hin as [-> | Hin].
    + change (create order (it0 :: l) st)
        with (create order l (create_item order st it0)).
      rewrite create_other by assumption. simpl. apply lookup_insert_eq.
    + change (create order (it0 :: l) st)
        with (create order l (create_item order st it0)).
      now apply IH.
Qed.

Lemma restock_other (l : list Item.OrderItem) :
  forall st id,
    id ∉ Item.product <$> l ->
    products (foldl restock_item st l) !! id = products st !! id.
Proof.
  induction l as [|item l IH]; intros st id Hnot; simpl; [reflexivity|].
  rewrite fmap_cons in Hnot. apply not_elem_of_cons in Hnot as [Hne Hl].
  rewrite IH by assumption. unfold restock_item.
  destruct (products st !! Item.product item); [|reflexivity].
  simpl. now rewrite lookup_insert_ne.
Qed.

Lemma restock_hit (l : list Item.OrderItem) :
  forall st item p,
    NoDup (Item.product <$> l) -> item ∈ l ->
    products st !! Item.product item = Some p ->
    products (foldl restock_item st l) !! Item.product item
    = Some (set_stock p (stock_quantity p + Item.quantity item)).
Proof.
  induction l as [|item0 l IH]; intros st item p Hnd Hin Hp.
  - inversion Hin.
  - rewrite fmap_cons in Hnd. apply NoDup_cons in Hnd as [Hfresh Hnd].
    simpl. apply elem_of_cons in Hin as [-> | Hin].
    + rewrite restock_other by assumption.
      unfold restock_item. rewrite Hp. simpl. apply lookup_insert_eq.
    + apply IH; [assumption..|].
      unfold restock_item.
      destruct (products st !! Item.product item0) as [p0|]; [|exact Hp].
      simpl. rewrite lookup_insert_ne; [exact Hp|].
      intros Heq. apply Hfresh. rewrite Heq.
      now apply list_elem_of_fmap_2.
Qed.

Lemma filter_all {A} (P : A -> Prop) `{!forall x, Decision (P x)}
    (l : list A) :
  (forall x, x ∈ l -> P x) -> filter P l = l.
Proof.
  induction l as [|x l IH]; intros Hall; [reflexivity|].
  rewrite filter_cons_True by (apply Hall, list_elem_of_here).
  f_equal. apply IH. intros y Hy. apply Hall. now apply list_elem_of_further.
Qed.

(** The items the cancellation restocks for an order number that no
    earlier order item carries. *)
Lemma cancelled_items (order : nat) (items_data : list validated_item)
    (st : state) :
  (forall item, item ∈ order_items st -> Item.order item <> order) ->
  filter (fun item => Item.order item = order)
    (order_items (create order items_data st))
  = to_item order <$> items_data.
Proof.
  intros Hfresh. rewrite create_order_items, filter_app.
  rewrite Payments.filter_none by (intros item Hin; now apply Hfresh).
  rewrite filter_all; [reflexivity|].
  intros item Hin. apply list_elem_of_fmap in Hin as (it & -> & _).
  reflexivity.
Qed.

Lemma validated_ids (db : gmap nat product_row) (value : list (nat * Z))
    (items_data : list validated_item) :
  validate_items db value = Some items_data ->
  product_id <$> items_data = value.*1
  /\ forall it, it ∈ items_data ->
                (product_id it, quantity it) ∈ value
                /\ db !! product_id it = Some (product it).
Proof.
  intros Hv.
  destruct (validate_items_Some_inv db value items_data Hv)
    as [Hvalue Hsnap]. split.
  - rewrite <- Hvalue, <- list_fmap_compose. reflexivity.
  - intros it Hit. split; [|now apply Hsnap].
    rewrite <- Hvalue.
    apply (list_elem_of_fmap_2 (fun it => (product_id it, quantity it))).
    exact Hit.
Qed.

Lemma set_stock_back (p : product_row) (q : Z) :
  set_stock (set_stock p (stock_quantity p - q)) (stock_quantity p - q + q)
  = p.
Proof. destruct p. unfold set_stock. simpl. f_equal. lia. Qed.

Lemma cancel_one (order : nat) (st : state) :
  auto_cancel_unpaid_orders [order] st
  = foldl restock_item st
      (filter (fun item => Item.order item = order) (order_items st)).
Proof. reflexivity. Qed.

(** An accepted order that names each product once takes exactly the
    ordered quantity off the stock of each product it names, leaves
    every other product as it is, and adds one order item per item of
    the order. *)
Theorem place_order_decrements (order : nat) (value : list (nat * Z))
    (st : state) :
  is_Some (validate_items (products st) value) ->
  NoDup value.*1 ->
  (forall id q,
     (id, q) ∈ value ->
     exists p,
       products st !! id = Some p
       /\ products (place_order order value st) !! id
          = Some (set_stock p (stock_quantity p - q))) /\
  (forall id,
     id ∉ value.*1 ->
     products (place_order order value st) !! id = products st !! id) /\
  order_items (place_order order value st)
  = order_items st
    ++ ((fun x => {| Item.order := order; Item.product := fst x;
                     Item.quantity := snd x |}) <$> value).
Proof.
  intros [items_data Hv] Hnd. unfold place_order. rewrite Hv.
  destruct (validated_ids _ _ _ Hv) as [Hids Hsnap].
  destruct (validate_items_Some_inv _ _ _ Hv) as [Hvalue _].
  split; [|split].
  - intros id q Hin. rewrite <- Hvalue in Hin.
    apply list_elem_of_fmap in Hin as (it & [= -> ->] & Hit).
    exists (product it). split; [now apply Hsnap|].
    apply create_hit; [now rewrite Hids | exact Hit].
  - intros id Hnot. apply create_other. now rewrite Hids.
  - rewrite create_order_items. f_equal.
    rewrite <- Hvalue, <- list_fmap_compose. reflexivity.
Qed.

Lemma place_order_decrements_witness :
  products (place_order 1 [(1%nat, 3)] shop) !! 1%nat
  = Some {| stock_quantity := 2; is_active := true |}.
Proof.
  destruct (place_order_decrements 1 [(1%nat, 3)] shop) as (Hdec & _).
  - vm_compute. eauto.
  - apply NoDup_singleton.
  - destruct (Hdec 1%nat 3) as (p & Hp & Hafter).
    + apply list_elem_of_here.
    + unfold shop in Hp. simpl in Hp.
      apply lookup_singleton_Some in Hp as [_ <-]. exact Hafter.
Defined.

(** Placing an order that names each product once and then cancelling
    it as unpaid gives every product its stock quantity back, when no
    earlier order item carries the order's number; no product appears
    or disappears, and [is_active] is as it was.  The statement is about
    these two columns: both saves are full saves of the product, whose
    hook sets [is_on_sale] again from the clock, and the product row of
    this model does not carry that column. *)
Theorem place_then_cancel_restores (order : nat) (value : list (nat * Z))
    (st : state) :
  is_Some (validate_items (products st) value) ->
  NoDup value.*1 ->
  (forall item, item ∈ order_items st -> Item.order item <> order) ->
  forall id,
    stock_quantity
      <$> products (auto_cancel_unpaid_orders [order]
                      (place_order order value st)) !! id
    = stock_quantity <$> products st !! id
    /\ is_active
         <$> products (auto_cancel_unpaid_orders [order]
                         (place_order order value st)) !! id
       = is_active <$> products st !! id.
Proof.
  intros [items_data Hv] Hnd Hfresh id.
  assert (Hrow : products (auto_cancel_unpaid_orders [order]
                             (place_order order value st)) !! id
                 = products st !! id).
  { unfold place_order. rewrite Hv.
    destruct (validated_ids _ _ _ Hv) as [Hids Hsnap].
    rewrite cancel_one, cancelled_items by assumption.
    assert (Hprod : Item.product <$> (to_item order <$> items_data)
                    = value.*1).
    { rewrite <- Hids, <- list_fmap_compose. reflexivity. }
    destruct (decide (id ∈ value.*1)) as [Hin | Hnot].
    - rewrite <- Hids in Hin.
      apply list_elem_of_fmap in Hin as (it & -> & Hit).
      destruct (Hsnap it Hit) as [_ Hp].
      rewrite (restock_hit (to_item order <$> items_data)
                 (create order items_data st) (to_item order it)
                 (set_stock (product it)
                    (stock_quantity (product it) - quantity it))).
      + rewrite Hp. f_equal. simpl. apply set_stock_back.
      + now rewrite Hprod.
      + now apply list_elem_of_fmap_2.
      + simpl. apply create_hit; [now rewrite Hids | exact Hit].
    - rewrite restock_other by now rewrite Hprod.
      apply create_other. now rewrite Hids. }
  rewrite Hrow. split; reflexivity.
Qed.

Lemma place_then_cancel_restores_witness :
  stock_quantity
    <$> products (auto_cancel_unpaid_orders [1%nat]
                    (place_order 1 [(1%nat, 3)] shop)) !! 1%nat
  = stock_quantity <$> products shop !! 1%nat.
Proof.
  apply (place_then_cancel_restores 1 [(1%nat, 3)] shop).
  - vm_compute. eauto.
  - apply NoDup_singleton.
  - intros item Hitem. inversion Hitem.
Defined.

Lemma restock_item_lookup (st : state) (item : Item.OrderItem)
    (p : product_row) :
  products st !! Item.product item = Some p ->
  products (restock_item st item) !! Item.product item
  = Some (set_stock p (stock_quantity p + Item.quantity item)).
Proof.
  intros Hp. unfold restock_item. rewrite Hp. simpl. apply lookup_insert_eq.
Qed.

(** An order that names the same product twice is accepted when each
    quantity alone is in stock; it takes only the second quantity off
    the stock, because each item is written from its own copy of the
    product, and cancelling it puts both quantities back: the product
    ends with the first quantity more than it had. *)
Theorem double_listing_inflates_stock
    (order id : nat) (q1 q2 : Z) (p : product_row) (st : state) :
  products st !! id = Some p -> is_active p = true ->
  1 <= q1 <= stock_quantity p -> 1 <= q2 <= stock_quantity p ->
  (forall item, item ∈ order_items st -> Item.order item <> order) ->
  products (place_order order [(id, q1); (id, q2)] st) !! id
  = Some (set_stock p (stock_quantity p - q2))
  /\ products
       (auto_cancel_unpaid_orders [order]
          (place_order order [(id, q1); (id, q2)] st)) !! id
     = Some (set_stock p (stock_quantity p + q1)).
Proof.
  intros Hp Ha Hq1 Hq2 Hfresh.
  assert (Hv : validate_items (products st) [(id, q1); (id, q2)]
               = Some [ {| product_id := id; product := p; quantity := q1 |};
                        {| product_id := id; product := p;
                           quantity := q2 |} ]).
  { unfold validate_items, validate_items_loop. rewrite Hp, Ha. simpl.
    destruct (Z.ltb_spec q1 1); [lia|].
    destruct (Z.ltb_spec (stock_quantity p) q1); [lia|].
    destruct (Z.ltb_spec q2 1); [lia|].
    destruct (Z.ltb_spec (stock_quantity p) q2); [lia|]. reflexivity. }
  unfold place_order. rewrite Hv.
  assert (Hplaced :
            products
              (create order
                 [ {| product_id := id; product := p; quantity := q1 |};
                   {| product_id := id; product := p; quantity := q2 |} ] st)
              !! id
            = Some (set_stock p (stock_quantity p - q2))).
  { unfold create. simpl. apply lookup_insert_eq. }
  split; [exact Hplaced|].
  rewrite cancel_one, cancelled_items by assumption.
  match goal with
  | |- products (foldl restock_item ?s (to_item order <$> [?a; ?b])) !! id = _ =>
      change (products
                (restock_item (restock_item s (to_item order a))
                   (to_item order b)) !! id
              = Some (set_stock p (stock_quantity p + q1)));
      pose proof (restock_item_lookup s (to_item order a) _ Hplaced) as H1
  end.
  simpl in H1.
  match goal with
  | |- products (restock_item ?s ?b) !! id = _ =>
      pose proof (restock_item_lookup s b _ H1) as H2
  end.
  etransitivity; [exact H2|].
  unfold set_stock. simpl. f_equal. f_equal. lia.
Qed.

Lemma double_listing_inflates_stock_witness :
  products
    (auto_cancel_unpaid_orders [1%nat]
       (place_order 1 [(1%nat, 3); (1%nat, 3)] shop)) !! 1%nat
  = Some {| stock_quantity := 8; is_active := true |}.
Proof.
  destruct (double_listing_inflates_stock 1 1 3 3
              {| stock_quantity := 5; is_active := true |} shop)
    as [_ Hafter].
  - reflexivity.
  - reflexivity.
  - simpl. lia.
  - simpl. lia.
  - intros item Hitem. inversion Hitem.
  - exact Hafter.
Defined.

End OrderStock.

(** ** payments/tasks.py: the callback task on its sound paths, and the
    revenue figures *)

Module CallbackPaths.

Import Payments.

(** Away from the reported-failure path the callback task retries as
    its decorator says: a successful run returns and schedules nothing;
    a run whose processor raises schedules exactly one retry, with
    countdown [60 * 2 ** retries], as long as [retries < 3]; at
    [retries = 3] nothing more is scheduled whatever the processor does;
    and no scheduled retry ever carries a retry number above 3. *)
Theorem callback_task_sound_paths (r : nat) :
  process_mpesa_callback_task r (Success true)
  = (TaskReturns "success" "Callback processed", []) /\
  ((r < max_retries)%nat ->
   snd (process_mpesa_callback_task r Raises)
   = [{| countdown := 60 * 2 ^ Z.of_nat r; retries := S r |}]) /\
  (forall p, snd (process_mpesa_callback_task max_retries p) = []) /\
  ((r <= max_retries)%nat ->
   forall p m, m ∈ snd (process_mpesa_callback_task r p) ->
               (retries m <= max_retries)%nat).
Proof.
  split; [apply callback_success_no_retry|].
  split; [apply callback_exception_retries_once|].
  split; [apply callback_gives_up|].
  intros Hr p m. now apply callback_retries_bounded.
Qed.

(** The countdown before the [n]-th retry of a callback whose processing
    keeps raising doubles from 60 seconds: 60, 120, 240. *)
Lemma callback_task_sound_paths_witness :
  snd (process_mpesa_callback_task 2 Raises)
  = [{| countdown := 240; retries := 3 |}].
Proof.
  destruct (callback_task_sound_paths 2) as (_ & Hraise & _).
  apply Hraise. unfold max_retries. lia.
Defined.

Lemma sum_amounts_nonneg (l : list Q) :
  Forall (fun q => (0 <= q)%Q) l -> (0 <= sum_amounts l)%Q.
Proof.
  induction 1 as [|q l Hq _ IH]; simpl; [apply Qle_refl|].
  unfold sum_amounts in *. simpl. lra.
Qed.

(** When no transaction amount and no refund amount of the day is
    negative, the report's gross revenue and refunds are not negative
    and its net revenue is at most its gross revenue. *)
Theorem reconcile_revenue_bounds (now : Z)
    (db : gmap nat MpesaTransaction) (rdb : gmap nat Refund.MpesaRefund) :
  (forall id t, db !! id = Some t -> (0 <= amount t)%Q) ->
  (forall id r, rdb !! id = Some r -> (0 <= Refund.amount r)%Q) ->
  (0 <= gross_revenue (reconcile_daily_transactions now db rdb))%Q
  /\ (0 <= refunds (reconcile_daily_transactions now db rdb))%Q
  /\ (net_revenue (reconcile_daily_transactions now db rdb)
      <= gross_revenue (reconcile_daily_transactions now db rdb))%Q.
Proof.
  intros Hamounts Hrefunds.
  assert (Hg : (0 <= gross_revenue
                       (reconcile_daily_transactions now db rdb))%Q).
  { unfold reconcile_daily_transactions. simpl.
    rewrite or_zero_aggregate_sum. apply sum_amounts_nonneg.
    apply Forall_forall. intros q Hq.
    apply list_elem_of_fmap in Hq as ([id t] & -> & Hin).
    apply list_elem_of_filter in Hin as [_ Hin].
    unfold transactions_of_day in Hin.
    apply objects_filter_elem in Hin as [Ht _]. now apply (Hamounts id). }
  assert (Hr : (0 <= refunds (reconcile_daily_transactions now db rdb))%Q).
  { unfold reconcile_daily_transactions. simpl.
    rewrite or_zero_aggregate_sum. apply sum_amounts_nonneg.
    apply Forall_forall. intros q Hq.
    apply list_elem_of_fmap in Hq as ([id r] & -> & Hin).
    apply list_elem_of_filter in Hin as [_ Hin].
    unfold refunds_of_day in Hin.
    apply objects_filter_elem in Hin as [Ht _]. now apply (Hrefunds id). }
  split; [exact Hg|]. split; [exact Hr|].
  change (net_revenue (reconcile_daily_transactions now db rdb))
    with (gross_revenue (reconcile_daily_transactions now db rdb)
          - refunds (reconcile_daily_transactions now db rdb))%Q.
  lra.
Qed.

Lemma reconcile_revenue_bounds_witness :
  (net_revenue (reconcile_daily_transactions (40 * hour) one_paid ∅)
   <= gross_revenue (reconcile_daily_transactions (40 * hour) one_paid ∅))%Q.
Proof.
  apply (reconcile_revenue_bounds (40 * hour) one_paid ∅).
  - intros id t Ht. unfold one_paid in Ht.
    apply lookup_singleton_Some in Ht as [_ <-]. simpl. lra.
  - intros id r Hr. rewrite lookup_empty in Hr. discriminate.
Defined.

End CallbackPaths.

(** ** products/models.py: stock across the warehouses *)

Module WarehouseSummary.

(** The columns of [WarehouseStock] that the summary adds up. *)
Record WarehouseStock := {
  product : nat;
  warehouse : nat;
  quantity : Z;
  reserved_quantity : Z;
  damaged_quantity : Z
}.

(** [Sum(...)] over a queryset: null when it is empty. *)
Definition aggregate_sum (l : list Z) : option Z :=
  match l with
  | [] => None
  | _ => Some (foldr Z.add 0 l)
  end.

(** The sums of [Product.warehouse_stock_summary] for product [id]. *)
Record summary := {
  total_quantity : option Z;
  total_reserved : option Z;
  total_damaged : option Z;
  total_available : option Z
}.

Definition rows_of (id : nat) (table : list WarehouseStock)
  : list WarehouseStock :=
  filter (fun w => product w = id) table.

Definition warehouse_stock_summary (id : nat) (table : list WarehouseStock)
  : summary :=
  let rows := rows_of id table in
  {| total_quantity := aggregate_sum (quantity <$> rows);
     total_reserved := aggregate_sum (reserved_quantity <$> rows);
     total_damaged := aggregate_sum (damaged_quantity <$> rows);
     total_available :=
       aggregate_sum
         ((fun w => quantity w - reserved_quantity w - damaged_quantity w)
            <$> rows) |}.

(** [Product.available_quantity]: [result['total'] or 0]. *)
Definition available_quantity (id : nat) (table : list WarehouseStock) : Z :=
  match aggregate_sum
          ((fun w => quantity w - reserved_quantity w - damaged_quantity w)
             <$> rows_of id table)
  with
  | Some total => if total =? 0 then 0 else total
  | None => 0
  end.

Lemma or_zero_Z (x : Z) : (if x =? 0 then 0 else x) = x.
Proof. destruct (Z.eqb_spec x 0) as [->|]; reflexivity. Qed.

Lemma sum_available (rows : list WarehouseStock) :
  foldr Z.add 0
    ((fun w => quantity w - reserved_quantity w - damaged_quantity w) <$> rows)
  = foldr Z.add 0 (quantity <$> rows)
    - foldr Z.add 0 (reserved_quantity <$> rows)
    - foldr Z.add 0 (damaged_quantity <$> rows).
Proof.
  induction rows as [|w rows IH]; [reflexivity|].
  rewrite !fmap_cons. simpl. rewrite IH. lia.
Qed.

(** The available quantity of a product is the total of its warehouse
    quantities less the totals reserved and damaged, and 0 for a product
    without warehouse rows; the summary's [total_available] is that
    number whenever the product has a row, and all four sums are null
    when it has none. *)
Theorem available_quantity_is_total_less_held (id : nat)
    (table : list WarehouseStock) :
  available_quantity id table
  = foldr Z.add 0 (quantity <$> rows_of id table)
    - foldr Z.add 0 (reserved_quantity <$> rows_of id table)
    - foldr Z.add 0 (damaged_quantity <$> rows_of id table)
  /\ (rows_of id table <> [] ->
      total_available (warehouse_stock_summary id table)
      = Some (available_quantity id table)
      /\ exists q r d,
           total_quantity (warehouse_stock_summary id table) = Some q
           /\ total_reserved (warehouse_stock_summary id table) = Some r
           /\ total_damaged (warehouse_stock_summary id table) = Some d
           /\ available_quantity id table = q - r - d)
  /\ (rows_of id table = [] ->
      available_quantity id table = 0
      /\ warehouse_stock_summary id table
         = {| total_quantity := None; total_reserved := None;
              total_damaged := None; total_available := None |}).
Proof.
  unfold available_quantity, warehouse_stock_summary.
  pose proof (sum_available (rows_of id table)) as Hsum.
  destruct (rows_of id table) as [|w rows] eqn:Hrows.
  - simpl. split; [reflexivity|]. split; [congruence|].
    intros _. split; reflexivity.
  - assert (Hav :
        (match aggregate_sum
                 ((fun w => quantity w - reserved_quantity w
                            - damaged_quantity w) <$> w :: rows)
         with
         | Some total => if total =? 0 then 0 else total
         | None => 0
         end)
        = foldr Z.add 0
            ((fun w => quantity w - reserved_quantity w - damaged_quantity w)
               <$> w :: rows)).
    { rewrite fmap_cons. cbn [aggregate_sum]. apply or_zero_Z. }
    rewrite Hav. split; [exact Hsum|]. split; [|discriminate].
    intros _. simpl. split; [reflexivity|].
    eexists _, _, _. repeat split. exact Hsum.
Qed.

Lemma available_quantity_is_total_less_held_witness :
  total_available
    (warehouse_stock_summary 1
       [ {| product := 1; warehouse := 1; quantity := 10;
            reserved_quantity := 2; damaged_quantity := 1 |} ])
  = Some 7.
Proof.
  destruct (available_quantity_is_total_less_held 1
              [ {| product := 1; warehouse := 1; quantity := 10;
                   reserved_quantity := 2; damaged_quantity := 1 |} ])
    as (_ & Hrows & _).
  destruct Hrows as [Htotal _]; [discriminate | exact Htotal].
Defined.

End WarehouseSummary.

(** ** orders/serializers.py: the totals of an order *)

Module OrderTotals.

(** The columns of [ShippingMethod] that [create] reads. *)
Record ShippingMethod := {
  name : string;
  carrier : string;
  cost : Q;
  free_shipping_threshold : option Q
}.

(** An entry of [items_data]: the product and the quantity. *)
Record item_data := {
  product : Products.Product;
  quantity : Z
}.

(** The amounts [create] stores on the order. *)
Record totals := {
  subtotal : Q;
  tax_rate : Q;
  tax_amount : Q;
  shipping_cost : Q;
  discount_amount : Q;
  total : Q
}.

(** "Calculate totals" in [OrderCreateSerializer.create]. *)
Definition order_totals (items_data : list item_data)
    (shipping_method : option ShippingMethod) : totals :=
  let subtotal :=
    foldl (fun subtotal it =>
             (subtotal
              + Products.final_price (product it) * inject_Z (quantity it))%Q)
      0%Q items_data in
  let shipping_cost :=
    match shipping_method with
    | Some m =>
        if decimal_truthy (free_shipping_threshold m)
           && Qle_bool (default 0%Q (free_shipping_threshold m)) subtotal
        then 0%Q
        else cost m
    | None => 0%Q
    end in
  let tax_rate := 10%Q in
  let tax_amount := (subtotal * (tax_rate / 100))%Q in
  let total := (subtotal + tax_amount + shipping_cost)%Q in
  let discount_amount := 0%Q in
  {| subtotal := subtotal;
     tax_rate := tax_rate;
     tax_amount := tax_amount;
     shipping_cost := shipping_cost;
     discount_amount := discount_amount;
     total := (total - discount_amount)%Q |}.

(** The sum of the lines of an order at a given unit price. *)
Definition lines_total (unit_price : Products.Product -> Q)
    (items_data : list item_data) : Q :=
  foldr (fun it acc =>
           (unit_price (product it) * inject_Z (quantity it) + acc)%Q)
    0%Q items_data.

Lemma subtotal_lines (items_data : list item_data) :
  forall acc,
    (foldl (fun subtotal it =>
              (subtotal
               + Products.final_price (product it) * inject_Z (quantity it))%Q)
       acc items_data
     == acc + lines_total Products.final_price items_data)%Q.
Proof.
  induction items_data as [|it l IH]; intros acc; simpl.
  - ring.
  - rewrite IH. ring.
Qed.

Lemma lines_total_ext (f g : Products.Product -> Q)
    (items_data : list item_data) :
  (forall it, it ∈ items_data -> f (product it) = g (product it)) ->
  lines_total f items_data = lines_total g items_data.
Proof.
  induction items_data as [|it l IH]; intros Hfg; [reflexivity|].
  simpl. rewrite IH, (Hfg it).
  - reflexivity.
  - apply list_elem_of_here.
  - intros it' Hit'. apply Hfg. now apply list_elem_of_further.
Qed.

(** The order total is the subtotal plus 10% tax plus shipping, no
    discount being applied.  Shipping is the method's cost, except that
    it is free when the method has a (non-zero) free-shipping threshold
    and the subtotal reaches it, and when no method is given.  The
    subtotal charges every line at [final_price] (the price less the
    discount percentage): it is the sum of the current prices only when
    no ordered product has a sale price in force. *)
Theorem order_totals_spec (items_data : list item_data)
    (shipping_method : option ShippingMethod) (now : Z) :
  let t := order_totals items_data shipping_method in
  (subtotal t == lines_total Products.final_price items_data)%Q /\
  (total t == subtotal t + subtotal t / 10 + shipping_cost t)%Q /\
  (shipping_method = None -> shipping_cost t = 0%Q) /\
  (forall m th,
     shipping_method = Some m -> free_shipping_threshold m = Some th ->
     ~ (th == 0)%Q -> (th <= subtotal t)%Q -> shipping_cost t = 0%Q) /\
  (forall m,
     shipping_method = Some m ->
     (forall th, free_shipping_threshold m = Some th ->
                 (th == 0)%Q \/ (subtotal t < th)%Q) ->
     shipping_cost t = cost m) /\
  ((forall it, it ∈ items_data ->
      ~ (Products.sale_price_set (product it)
         /\ Products.is_sale_active (product it) now = true)) ->
   (subtotal t
    == lines_total (fun p => Products.current_price p now) items_data)%Q).
Proof.
  intros t.
  assert (Hsub : (subtotal t
                  == lines_total Products.final_price items_data)%Q).
  { unfold t, order_totals. simpl. rewrite subtotal_lines. ring. }
  split; [exact Hsub|]. split; [|split; [|split; [|split]]].
  - unfold t, order_totals. simpl. field.
  - intros ->. reflexivity.
  - intros m th -> Hth Hnz Hle. unfold t, order_totals in *. simpl in *.
    rewrite Hth. simpl.
    destruct (Qeq_bool th 0) eqn:E.
    { apply Qeq_bool_iff in E. contradiction. }
    simpl. apply Qle_bool_iff in Hle. now rewrite Hle.
  - intros m -> Hth. unfold t, order_totals in *. simpl in *.
    destruct (free_shipping_threshold m) as [th|]; simpl; [|reflexivity].
    destruct (Hth th eq_refl) as [Hz | Hlt].
    + apply Qeq_bool_iff in Hz. now rewrite Hz.
    + destruct (Qeq_bool th 0); [reflexivity|]. simpl.
      destruct (Qle_bool th _) eqn:E; [|reflexivity].
      apply Qle_bool_iff in E. exfalso. eapply Qlt_not_le; eauto.
  - intros Hnosale. rewrite Hsub.
    rewrite (lines_total_ext Products.final_price
               (fun p => Products.current_price p now)); [reflexivity|].
    intros it Hit. symmetry. apply Products.current_price_no_sale.
    now apply Hnosale.
Qed.

(** Two of the test product with a 20% discount, shipped by a method
    that is free from 200: 240 of goods, 24 of tax, no shipping. *)
Definition sample_method : ShippingMethod :=
  {| name := "Standard"; carrier := "G4S"; cost := 15;
     free_shipping_threshold := Some 200%Q |}.

Definition sample_items : list item_data :=
  [ {| product := Products.with_discount Products.headphones 20%Q;
       quantity := 2 |} ].

Example sample_order_total :
  (total (order_totals sample_items (Some sample_method)) == 264)%Q.
Proof. reflexivity. Qed.

Lemma order_totals_spec_witness :
  shipping_cost (order_totals sample_items (Some sample_method)) = 0%Q.
Proof.
  destruct (order_totals_spec sample_items (Some sample_method) 0)
    as (_ & _ & _ & Hfree & _).
  apply (Hfree sample_method 200%Q).
  - reflexivity.
  - reflexivity.
  - intros H. discriminate H.
  - vm_compute. discriminate.
Defined.

End OrderTotals.

(** ** products/models.py: related products *)

Module Related.

(** The columns [get_related_products] reads. *)
Record Product := {
  category : nat;
  is_active : bool;
  popularity_score : Q
}.

(** [x] comes no later than [y] under [order_by('-popularity_score')]. *)
Definition before (x y : nat * Product) : Prop :=
  (popularity_score (snd y) <= popularity_score (snd x))%Q.

Global Instance before_dec : RelDecision before.
Proof.
  intros x y. unfold before.
  destruct (Qlt_le_dec (popularity_score (snd x)) (popularity_score (snd y)))
    as [Hlt | Hle].
  - right. intros Hle. eapply Qlt_not_le; eauto.
  - left. exact Hle.
Defined.

Global Instance before_total : Total before.
Proof.
  intros x y. unfold before.
  destruct (Qlt_le_dec (popularity_score (snd x)) (popularity_score (snd y)))
    as [Hlt | Hle].
  - right. now apply Qlt_le_weak.
  - left. exact Hle.
Qed.

Global Instance before_trans : Transitive before.
Proof. intros x y z Hxy Hyz. unfold before in *. eapply Qle_trans; eauto. Qed.

(** The candidates: [filter(category=self.category, is_active=True)
    .exclude(pk=self.pk)]. *)
Definition candidates (pk : nat) (self : Product) (db : gmap nat Product)
  : list (nat * Product) :=
  map_to_list
    (filter (fun kv => (category (snd kv) = category self
                        /\ is_active (snd kv) = true)
                       /\ fst kv <> pk) db).

(** [Product.get_related_products(limit)]; the order among products of
    equal score is left to the database, here to the sort. *)
Definition get_related_products (pk : nat) (self : Product) (limit : nat)
    (db : gmap nat Product) : list (nat * Product) :=
  take limit (merge_sort before (candidates pk self db)).

Lemma candidates_elem (pk : nat) (self : Product) (db : gmap nat Product)
    (id : nat) (p : Product) :
  (id, p) ∈ candidates pk self db <->
  db !! id = Some p /\ category p = category self
  /\ is_active p = true /\ id <> pk.
Proof.
  unfold candidates. rewrite elem_of_map_to_list, map_lookup_filter_Some.
  simpl. tauto.
Qed.

(** The related products of a product are at most [limit] active
    products of its own category, never the product itself and none
    twice; they are listed from the most popular down, and every
    candidate left out is at most as popular as each one returned.
    When there are no more than [limit] candidates all are returned. *)
Theorem related_products_are_the_most_popular
    (pk : nat) (self : Product) (limit : nat) (db : gmap nat Product) :
  let related := get_related_products pk self limit db in
  (length related <= limit)%nat /\
  length related = Nat.min limit (length (candidates pk self db)) /\
  (forall id p,
     (id, p) ∈ related ->
     db !! id = Some p /\ category p = category self
     /\ is_active p = true /\ id <> pk) /\
  NoDup related.*1 /\
  StronglySorted before related /\
  (forall x y,
     x ∈ related -> y ∈ candidates pk self db -> y ∉ related ->
     (popularity_score (snd y) <= popularity_score (snd x))%Q).
Proof.
  intros related. unfold related, get_related_products.
  set (sorted := merge_sort before (candidates pk self db)).
  assert (Hperm : sorted ≡ₚ candidates pk self db)
    by apply merge_sort_Permutation.
  assert (Hsorted : StronglySorted before sorted)
    by apply (StronglySorted_merge_sort before).
  assert (Hsplit : sorted = take limit sorted ++ drop limit sorted)
    by (symmetry; apply take_drop).
  split; [rewrite length_take; lia|].
  split; [rewrite length_take; now rewrite Hperm|].
  split; [|split; [|split]].
  - intros id p Hin. apply candidates_elem. rewrite <- Hperm.
    eapply elem_of_sublist; [exact Hin | apply sublist_take].
  - apply (sublist_NoDup _ (sorted.*1)).
    + rewrite Hperm. apply NoDup_fst_map_to_list.
    + apply (fmap_sublist fst), sublist_take.
  - rewrite Hsplit in Hsorted. now apply StronglySorted_app_1_l in Hsorted.
  - intros x y Hx Hy Hnot. rewrite <- Hperm in Hy.
    rewrite Hsplit in Hy, Hsorted.
    apply elem_of_app in Hy as [Hy | Hy]; [contradiction|].
    apply (StronglySorted_app_1_elem_of before _ _ x y Hsorted Hx Hy).
Qed.

(** Four products of category 1 and one of category 2. *)
Definition catalogue : gmap nat Product :=
  <[1%nat := {| category := 1; is_active := true; popularity_score := 5 |}]>
    (<[2%nat := {| category := 1; is_active := true;
                   popularity_score := 9 |}]>
       (<[3%nat := {| category := 1; is_active := false;
                      popularity_score := 20 |}]>
          (<[4%nat := {| category := 1; is_active := true;
                         popularity_score := 7 |}]>
             (<[5%nat := {| category := 2; is_active := true;
                            popularity_score := 30 |}]> ∅)))).

Example related_to_the_first :
  (get_related_products 1
     {| category := 1; is_active := true; popularity_score := 5 |}
     4 catalogue).*1
  = [2%nat; 4%nat].
Proof. vm_compute. reflexivity. Qed.

End Related.

(** ** customers/utils.py: Kenyan phone numbers *)

Module Phone.

Import Stdlib.Strings.Ascii.
Local Open Scope string_scope.

(** The model reads a Python [str] as the string of its characters and
    follows the regular expressions on ASCII text, where [\s] is the
    characters 9 to 13, 28 to 31 and the space, and [\d] is 0 to 9. *)
Definition ascii_only (s : string) : Prop :=
  Forall (fun c => (Ascii.nat_of_ascii c < 128)%nat) (String.list_ascii_of_string s).

Definition is_space (c : Ascii.ascii) : bool :=
  let n := Ascii.nat_of_ascii c in
  ((9 <=? n) && (n <=? 13) || (28 <=? n) && (n <=? 31) || (n =? 32))%nat.

Definition is_digit (c : Ascii.ascii) : bool :=
  let n := Ascii.nat_of_ascii c in ((48 <=? n) && (n <=? 57))%nat.

(** A character of the class [[\s\-\(\)]]. *)
Definition separator (c : Ascii.ascii) : bool :=
  is_space c || Ascii.eqb c "-"%char || Ascii.eqb c "("%char || Ascii.eqb c ")"%char.

(** [re.sub(r'[\s\-\(\)]', '', phone)] *)
Fixpoint clean (phone : string) : string :=
  match phone with
  | EmptyString => EmptyString
  | String c rest => if separator c then clean rest else String c (clean rest)
  end.

(** [s[len(p):]] when [s.startswith(p)]. *)
Fixpoint strip (p s : string) : option string :=
  match p, s with
  | EmptyString, _ => Some s
  | String a p', String b s' => if Ascii.eqb a b then strip p' s' else None
  | String _ _, EmptyString => None
  end.

Definition startswith (s p : string) : bool :=
  match strip p s with
  | Some _ => true
  | None => false
  end.

(** [\d{n}$] on a text without line feed. *)
Fixpoint digits (n : nat) (s : string) : bool :=
  match n, s with
  | O, EmptyString => true
  | S n', String c rest => is_digit c && digits n' rest
  | _, _ => false
  end.

(** [(7|1)\d{8}$] *)
Definition subscriber (s : string) : bool :=
  match s with
  | String c rest => (Ascii.eqb c "7"%char || Ascii.eqb c "1"%char) && digits 8 rest
  | EmptyString => false
  end.

Definition after (p s : string) : bool :=
  match strip p s with
  | Some rest => subscriber rest
  | None => false
  end.

(** [re.match(r'^(\+254|254|0)(7|1)\d{8}$', cleaned)] *)
Definition re_match (cleaned : string) : bool :=
  after "+254" cleaned || after "254" cleaned || after "0" cleaned.

(** [validate_kenyan_phone] *)
Definition validate_kenyan_phone (phone : string) : bool * string :=
  let cleaned := clean phone in
  if re_match cleaned then
    (true,
     if startswith cleaned "0"
     then "+254" ++ match cleaned with
                    | String _ rest => rest
                    | EmptyString => EmptyString
                    end
     else if startswith cleaned "254" then "+" ++ cleaned
     else cleaned)
  else (false, phone).

Example phone_local :
  validate_kenyan_phone "0712 345-678" = (true, "+254712345678").
Proof. reflexivity. Qed.

Example phone_international :
  validate_kenyan_phone "(254) 112345678" = (true, "+254112345678").
Proof. reflexivity. Qed.

Example phone_landline :
  validate_kenyan_phone "020 1234567" = (false, "020 1234567").
Proof. reflexivity. Qed.

Lemma strip_Some (p : string) :
  forall s rest, strip p s = Some rest -> s = p ++ rest.
Proof.
  induction p as [|a p IH]; intros s rest; simpl.
  - now intros [= ->].
  - destruct s as [|b s]; [discriminate|].
    destruct (Ascii.eqb_spec a b) as [->|]; [|discriminate].
    intros H. now rewrite (IH s rest H).
Qed.

Lemma digits_clean (n : nat) :
  forall s, digits n s = true -> clean s = s /\ String.length s = n.
Proof.
  induction n as [|n IH]; intros [|c s]; simpl; try discriminate.
  - auto.
  - intros H. apply andb_true_iff in H as [Hc Hs].
    destruct (IH s Hs) as [Hclean Hlen].
    assert (Hsep : separator c = false).
    { revert Hc. unfold is_digit, separator, is_space.
      destruct c as [[] [] [] [] [] [] [] []]; vm_compute;
        intros; congruence. }
    rewrite Hsep, Hclean, Hlen. auto.
Qed.

Lemma subscriber_clean (s : string) :
  subscriber s = true ->
  clean s = s /\ String.length s = 9%nat
  /\ exists c rest, s = String c rest /\ (c = "7"%char \/ c = "1"%char)
                    /\ digits 8 rest = true.
Proof.
  destruct s as [|c rest]; simpl; [discriminate|].
  intros H. apply andb_true_iff in H as [Hc Hd].
  destruct (digits_clean 8 rest Hd) as [Hclean Hlen].
  assert (Hc' : c = "7"%char \/ c = "1"%char).
  { apply orb_true_iff in Hc as [Hc|Hc]; apply Ascii.eqb_eq in Hc; auto. }
  assert (Hsep : separator c = false)
    by (destruct Hc' as [-> | ->]; reflexivity).
  rewrite Hsep, Hclean, Hlen. repeat split; eauto.
Qed.

(** What a successful validation returns. *)
Lemma validate_true (phone formatted : string) :
  validate_kenyan_phone phone = (true, formatted) ->
  exists s, subscriber s = true /\ formatted = "+254" ++ s
            /\ (clean phone = "+254" ++ s \/ clean phone = "254" ++ s
                \/ clean phone = "0" ++ s).
Proof.
  unfold validate_kenyan_phone.
  destruct (re_match (clean phone)) eqn:Hm; [|discriminate].
  intros [= <-]. unfold re_match in Hm.
  apply orb_true_iff in Hm as [Hm | Hm];
    [apply orb_true_iff in Hm as [Hm | Hm]|];
    unfold after in Hm;
    match type of Hm with
    | match strip ?p _ with _ => _ end = true =>
        destruct (strip p (clean phone)) as [s|] eqn:E; [|discriminate]
    end;
    apply strip_Some in E; rewrite E; exists s;
    (split; [exact Hm|]);
    cbv [String.append startswith]; simpl; auto.
Qed.

Lemma validate_normal (s : string) :
  subscriber s = true ->
  validate_kenyan_phone ("+254" ++ s) = (true, "+254" ++ s).
Proof.
  intros Hs. destruct (subscriber_clean s Hs) as (Hclean & _ & _).
  unfold validate_kenyan_phone, re_match, after, startswith.
  cbv [String.append]. simpl. rewrite Hclean. simpl. rewrite Hs. reflexivity.
Qed.

(** On an ASCII phone string: a number that validates is returned as
    [+254] followed by nine digits of which the first is 7 or 1
    (thirteen characters), whichever of the three spellings ([+254...],
    [254...], [0...]) and whatever separators it was written with;
    validating the returned number again returns it unchanged; and a
    number that does not validate is returned as it was given. *)
Theorem validate_kenyan_phone_normalises (phone : string) :
  ascii_only phone ->
  (forall formatted,
     validate_kenyan_phone phone = (true, formatted) ->
     (exists c rest,
        formatted = "+254" ++ String c rest
        /\ (c = "7"%char \/ c = "1"%char) /\ digits 8 rest = true)
     /\ String.length formatted = 13%nat
     /\ validate_kenyan_phone formatted = (true, formatted)) /\
  (fst (validate_kenyan_phone phone) = false ->
   snd (validate_kenyan_phone phone) = phone).
Proof.
  intros _. split.
  - intros formatted Hv.
    destruct (validate_true phone formatted Hv) as (s & Hs & -> & Hclean).
    destruct (subscriber_clean s Hs)
      as (Hcs & Hlen & c & rest & Hsc & Hc & Hd).
    split; [subst s; eauto|].
    split; [cbv [String.append]; simpl; now rewrite Hlen|].
    now apply validate_normal.
  - unfold validate_kenyan_phone.
    destruct (re_match (clean phone)); [discriminate | reflexivity].
Qed.

Lemma validate_kenyan_phone_normalises_witness :
  validate_kenyan_phone "+254712345678" = (true, "+254712345678").
Proof.
  assert (Hascii : ascii_only "0712 345-678").
  { unfold ascii_only. simpl. repeat constructor; simpl; lia. }
  destruct (validate_kenyan_phone_normalises "0712 345-678" Hascii)
    as [Hvalid _].
  destruct (Hvalid "+254712345678" eq_refl) as (_ & _ & Hagain).
  exact Hagain.
Defined.

End Phone.

(** ** inventory/tasks.py: stock level alerts *)

Module StockMonitor.

(** A row of [WarehouseStock].  [needs_reorder] is a property of the
    model, defined in [inventory/models.py]: the row carries the value
    the property has for it. *)
Record WarehouseStock := {
  warehouse : nat;
  product : nat;
  quantity : Z;
  reorder_point : Z;
  reorder_quantity : Z;
  needs_reorder : bool
}.

(** A row of [StockAlert] (the message text is left out). *)
Module Alert.
Record StockAlert := {
  alert_type : string;
  warehouse : nat;
  product : nat;
  is_resolved : bool;
  priority : string;
  current_quantity : Z;
  threshold_quantity : Z;
  resolution_notes : string
}.
End Alert.

(** The [alerts_created] dictionary. *)
Module Created.
Record alerts_created := {
  low_stock : nat;
  out_of_stock : nat;
  reorder_point : nat;
  overstock : nat
}.
End Created.

(** The four branches of the loop body that raise an alert. *)
Inductive kind := OutOfStock | LowStock | ReorderPoint | Overstock.

Definition alert_type_of (k : kind) : string :=
  match k with
  | OutOfStock => "out_of_stock"
  | LowStock => "low_stock"
  | ReorderPoint => "reorder_point"
  | Overstock => "overstock"
  end.

Definition priority_of (k : kind) : string :=
  match k with
  | OutOfStock => "critical"
  | LowStock => "high"
  | ReorderPoint => "medium"
  | Overstock => "low"
  end.

(** The [if]/[elif] chain: the branch taken for a stock row, [None] for
    the final [else]. *)
Definition classify (stock : WarehouseStock) : option kind :=
  if quantity stock =? 0 then Some OutOfStock
  else if (quantity stock <=? reorder_point stock)
          && (0 <? reorder_point stock) then Some LowStock
  else if needs_reorder stock then Some ReorderPoint
  else if (0 <? reorder_quantity stock)
          && (reorder_quantity stock * 3 <? quantity stock)
  then Some Overstock
  else None.

(** The [defaults] of the alert a branch creates. *)
Definition new_alert (k : kind) (stock : WarehouseStock) : Alert.StockAlert :=
  {| Alert.alert_type := alert_type_of k;
     Alert.warehouse := warehouse stock;
     Alert.product := product stock;
     Alert.is_resolved := false;
     Alert.priority := priority_of k;
     Alert.current_quantity :=
       match k with OutOfStock => 0 | _ => quantity stock end;
     Alert.threshold_quantity :=
       match k with
       | Overstock => reorder_quantity stock * 3
       | _ => reorder_point stock
       end;
     Alert.resolution_notes := "" |}.

(** The lookup of [get_or_create]: an unresolved alert of that type for
    that warehouse and product. *)
Definition open_alert (ty : string) (w p : nat) (a : Alert.StockAlert)
  : Prop :=
  Alert.alert_type a = ty /\ Alert.warehouse a = w /\ Alert.product a = p
  /\ Alert.is_resolved a = false.

Global Instance open_alert_dec ty w p a : Decision (open_alert ty w p a).
Proof. unfold open_alert. apply _. Defined.

(** [StockAlert.objects.get_or_create(...)]: the table and [created];
    [None] when several rows match ([MultipleObjectsReturned]). *)
Definition get_or_create (ty : string) (w p : nat)
    (defaults : Alert.StockAlert) (table : list Alert.StockAlert)
  : option (list Alert.StockAlert * bool) :=
  match filter (open_alert ty w p) table with
  | [] => Some (table ++ [defaults], true)
  | [_] => Some (table, false)
  | _ => None
  end.

(** The alerts the final [else] resolves. *)
Definition resolvable (w p : nat) (a : Alert.StockAlert) : Prop :=
  Alert.warehouse a = w /\ Alert.product a = p
  /\ Alert.alert_type a ∈ ["low_stock"; "out_of_stock"; "reorder_point"]
  /\ Alert.is_resolved a = false.

Global Instance resolvable_dec w p a : Decision (resolvable w p a).
Proof. unfold resolvable. apply _. Defined.

Definition resolved (a : Alert.StockAlert) : Alert.StockAlert :=
  {| Alert.alert_type := Alert.alert_type a;
     Alert.warehouse := Alert.warehouse a;
     Alert.product := Alert.product a;
     Alert.is_resolved := true;
     Alert.priority := Alert.priority a;
     Alert.current_quantity := Alert.current_quantity a;
     Alert.threshold_quantity := Alert.threshold_quantity a;
     Alert.resolution_notes := "Stock replenished automatically" |}.

Definition resolve (w p : nat) (table : list Alert.StockAlert)
  : list Alert.StockAlert :=
  (fun a => if decide (resolvable w p a) then resolved a else a) <$> table.

Definition bump (k : kind) (c : Created.alerts_created)
  : Created.alerts_created :=
  match k with
  | OutOfStock =>
      {| Created.low_stock := Created.low_stock c;
         Created.out_of_stock := S (Created.out_of_stock c);
         Created.reorder_point := Created.reorder_point c;
         Created.overstock := Created.overstock c |}
  | LowStock =>
      {| Created.low_stock := S (Created.low_stock c);
         Created.out_of_stock := Created.out_of_stock c;
         Created.reorder_point := Created.reorder_point c;
         Created.overstock := Created.overstock c |}
  | ReorderPoint =>
      {| Created.low_stock := Created.low_stock c;
         Created.out_of_stock := Created.out_of_stock c;
         Created.reorder_point := S (Created.reorder_point c);
         Created.overstock := Created.overstock c |}
  | Overstock =>
      {| Created.low_stock := Created.low_stock c;
         Created.out_of_stock := Created.out_of_stock c;
         Created.reorder_point := Created.reorder_point c;
         Created.overstock := S (Created.overstock c) |}
  end.

(** The state of the run: the alert table and the counters. *)
Definition state : Type := list Alert.StockAlert * Created.alerts_created.

(** The body of the inner loop for one stock row. *)
Definition monitor_one (st : state) (stock : WarehouseStock) : option state :=
  match classify stock with
  | Some k =>
      match get_or_create (alert_type_of k) (warehouse stock) (product stock)
              (new_alert k stock) (fst st) with
      | Some (table, created) =>
          Some (table, if created then bump k (snd st) else snd st)
      | None => None
      end
  | None => Some (resolve (warehouse stock) (product stock) (fst st), snd st)
  end.

(** [for stock in warehouse_stocks] *)
Fixpoint monitor_stocks (l : list WarehouseStock) (st : state)
  : option state :=
  match l with
  | [] => Some st
  | stock :: l' =>
      match monitor_one st stock with
      | Some st' => monitor_stocks l' st'
      | None => None
      end
  end.

(** [for warehouse in active_warehouses], each with
    [WarehouseStock.objects.filter(warehouse=warehouse)]. *)
Fixpoint monitor_warehouses (active_warehouses : list nat)
    (stocks : list WarehouseStock) (st : state) : option state :=
  match active_warehouses with
  | [] => Some st
  | w :: ws =>
      match monitor_stocks (filter (fun s => warehouse s = w) stocks) st with
      | Some st' => monitor_warehouses ws stocks st'
      | None => None
      end
  end.

Definition no_alert : Created.alerts_created :=
  {| Created.low_stock := 0; Created.out_of_stock := 0;
     Created.reorder_point := 0; Created.overstock := 0 |}.

Definition total_alerts (c : Created.alerts_created) : nat :=
  Created.low_stock c + Created.out_of_stock c
  + Created.reorder_point c + Created.overstock c.

(** The result of the task: the table it leaves, the counters it
    returns and whether it queued [send_stock_alert_summary]. *)
Record run := {
  alerts : list Alert.StockAlert;
  created : Created.alerts_created;
  summary_sent : bool
}.

(** [monitor_stock_levels]; [None] when the task fails on
    [MultipleObjectsReturned]. *)
Definition monitor_stock_levels (active_warehouses : list nat)
    (stocks : list WarehouseStock) (table : list Alert.StockAlert)
  : option run :=
  match monitor_warehouses active_warehouses stocks (table, no_alert) with
  | Some (table', c) =>
      Some {| alerts := table'; created := c;
              summary_sent := (0 <? total_alerts c)%nat |}
  | None => None
  end.


(** The stock rows the two loops visit, in order. *)
Definition visited (active_warehouses : list nat)
    (stocks : list WarehouseStock) : list WarehouseStock :=
  mjoin ((fun w => filter (fun s => warehouse s = w) stocks)
           <$> active_warehouses).

Definition key (s : WarehouseStock) : nat * nat := (warehouse s, product s).

Lemma monitor_stocks_app l1 l2 st :
  monitor_stocks (l1 ++ l2) st
  = match monitor_stocks l1 st with
    | Some st' => monitor_stocks l2 st'
    | None => None
    end.
Proof.
  revert st. induction l1 as [|s l1 IH]; intros st; simpl; [reflexivity|].
  destruct (monitor_one st s); [apply IH | reflexivity].
Qed.

Lemma monitor_warehouses_visited ws stocks st :
  monitor_warehouses ws stocks st = monitor_stocks (visited ws stocks) st.
Proof.
  revert st. induction ws as [|w ws IH]; intros st; [reflexivity|].
  unfold visited. rewrite fmap_cons. simpl.
  rewrite monitor_stocks_app.
  destruct (monitor_stocks _ st); [apply IH | reflexivity].
Qed.

Lemma visited_keys ws stocks :
  NoDup ws -> NoDup (key <$> stocks) -> NoDup (key <$> visited ws stocks).
Proof.
  intros Hws Hst. induction Hws as [|w ws Hw Hws IH].
  - constructor.
  - unfold visited. rewrite fmap_cons. simpl. rewrite fmap_app.
    apply NoDup_app. split; [|split].
    + eapply sublist_NoDup; [exact Hst|].
      apply fmap_sublist, sublist_filter.
    + intros k Hk1 Hk2.
      apply list_elem_of_fmap in Hk1 as (s1 & -> & Hs1).
      apply list_elem_of_fmap in Hk2 as (s2 & Hk & Hs2).
      apply list_elem_of_filter in Hs1 as [Hw1 _].
      apply list_elem_of_join in Hs2 as (l & Hs2 & Hl).
      apply list_elem_of_fmap in Hl as (w' & -> & Hw').
      apply list_elem_of_filter in Hs2 as [Hw2 _].
      unfold key in Hk. injection Hk as Hk _.
      apply Hw. rewrite <- Hw1, Hk, Hw2. exact Hw'.
    + exact IH.
Qed.

(** *** [get_or_create] and the resolution, on the lookups *)

Lemma filter_open_app ty w p t a :
  filter (open_alert ty w p) (t ++ [a])
  = filter (open_alert ty w p) t
    ++ (if decide (open_alert ty w p a) then [a] else []).
Proof.
  rewrite filter_app. reflexivity.
Qed.

Lemma open_new_alert k s ty w p :
  open_alert ty w p (new_alert k s)
  <-> ty = alert_type_of k /\ w = warehouse s /\ p = product s.
Proof.
  unfold open_alert, new_alert; simpl. intuition congruence.
Qed.



Lemma filter_open_resolve_other ty w p w' p' t :
  (w, p) <> (w', p') ->
  filter (open_alert ty w p) (resolve w' p' t)
  = filter (open_alert ty w p) t.
Proof.
  intros Hne. unfold resolve. induction t as [|a t IH]; [reflexivity|].
  rewrite fmap_cons.
  destruct (decide (resolvable w' p' a)) as [Hr|Hr].
  - assert (Ha : ~ open_alert ty w p a).
    { intros (_ & Hw & Hp & _). destruct Hr as (Hw' & Hp' & _).
      apply Hne. congruence. }
    rewrite (filter_cons_False _ a) by exact Ha.
    rewrite filter_cons_False; [exact IH|].
    unfold open_alert, resolved; simpl. intros (_ & _ & _ & H). discriminate.
  - destruct (decide (open_alert ty w p a)) as [H|H].
    + rewrite !filter_cons_True by exact H. f_equal. exact IH.
    + rewrite !filter_cons_False by exact H. exact IH.
Qed.

Lemma resolve_none w p t :
  (forall a, a ∈ t -> ~ resolvable w p a) -> resolve w p t = t.
Proof.
  intros H. unfold resolve. induction t as [|a t IH]; [reflexivity|].
  rewrite fmap_cons. rewrite IH.
  - destruct (decide (resolvable w p a)) as [Hr|Hr]; [|reflexivity].
    exfalso. apply (H a); [apply list_elem_of_here | exact Hr].
  - intros b Hb. apply H. apply list_elem_of_further. exact Hb.
Qed.

Lemma resolve_resolves w p t a :
  a ∈ resolve w p t -> ~ resolvable w p a.
Proof.
  unfold resolve. intros Ha.
  apply list_elem_of_fmap in Ha as (b & -> & _).
  destruct (decide (resolvable w p b)) as [Hr|Hr]; [|exact Hr].
  unfold resolvable, resolved; simpl. intros (_ & _ & _ & H). discriminate.
Qed.

Lemma resolve_keeps_unresolvable w p w' p' t a :
  (w, p) <> (w', p') ->
  (forall b, b ∈ t -> ~ resolvable w p b) ->
  a ∈ resolve w' p' t -> ~ resolvable w p a.
Proof.
  intros Hne H Ha. unfold resolve in Ha.
  apply list_elem_of_fmap in Ha as (b & -> & Hb).
  destruct (decide (resolvable w' p' b)) as [Hr|Hr]; [|apply H; exact Hb].
  unfold resolvable, resolved; simpl. intros (_ & _ & _ & Hx). discriminate.
Qed.

(** *** One stock row *)

(** What the loop body leaves for a stock row: its alert, or nothing
    left to resolve. *)
Definition settled (s : WarehouseStock) (table : list Alert.StockAlert)
  : Prop :=
  match classify s with
  | Some k =>
      length (filter (open_alert (alert_type_of k) (warehouse s) (product s))
                table) = 1%nat
  | None =>
      forall a, a ∈ table -> ~ resolvable (warehouse s) (product s) a
  end.

Lemma monitor_one_settles st s st' :
  monitor_one st s = Some st' -> settled s (fst st').
Proof.
  unfold monitor_one, settled, get_or_create.
  destruct (classify s) as [k|].
  - destruct (filter _ (fst st)) as [|a [|b l]] eqn:Hf; [| |discriminate].
    + intros [= <-]. simpl. rewrite filter_open_app, Hf. simpl.
      rewrite decide_True; [reflexivity|].
      apply open_new_alert. auto.
    + intros [= <-]. simpl. rewrite Hf. reflexivity.
  - intros [= <-]. simpl. intros a. apply resolve_resolves.
Qed.

Lemma monitor_one_keeps_settled st s' st' s :
  key s <> key s' ->
  settled s (fst st) -> monitor_one st s' = Some st' -> settled s (fst st').
Proof.
  unfold key. intros Hne.
  unfold monitor_one, settled, get_or_create.
  destruct (classify s') as [k'|].
  - destruct (filter (open_alert (alert_type_of k') (warehouse s')
                        (product s')) (fst st))
      as [|a [|b l]] eqn:Hf; [| |intros _; discriminate].
    + intros Hs [= <-]. simpl.
      destruct (classify s) as [k|].
      * rewrite filter_open_app, length_app, Hs.
        rewrite decide_False; [reflexivity|].
        rewrite open_new_alert. intros (_ & Hw & Hp). apply Hne. congruence.
      * intros x Hx. apply elem_of_app in Hx as [Hx|Hx]; [apply Hs; exact Hx|].
        apply list_elem_of_singleton in Hx as ->.
        unfold resolvable, new_alert; simpl.
        intros (Hw & Hp & _). apply Hne. congruence.
    + intros Hs [= <-]. exact Hs.
  - intros Hs [= <-]. simpl.
    destruct (classify s) as [k|].
    + rewrite filter_open_resolve_other by exact Hne. exact Hs.
    + intros a. apply resolve_keeps_unresolvable; [exact Hne | exact Hs].
Qed.

Lemma monitor_one_settled st s :
  settled s (fst st) -> monitor_one st s = Some st.
Proof.
  unfold monitor_one, settled, get_or_create. destruct st as [t c]; simpl.
  destruct (classify s) as [k|].
  - destruct (filter _ t) as [|a [|b l]]; simpl; intros H;
      try discriminate; try lia. reflexivity.
  - intros H. rewrite resolve_none by exact H. reflexivity.
Qed.


(** *** The loops *)


Lemma monitor_stocks_keeps_settled l st st' s :
  key s ∉ key <$> l ->
  settled s (fst st) -> monitor_stocks l st = Some st' -> settled s (fst st').
Proof.
  revert st. induction l as [|s' l IH]; intros st Hk Hs.
  - intros [= <-]. exact Hs.
  - simpl. rewrite fmap_cons in Hk. apply not_elem_of_cons in Hk as [Hne Hk].
    destruct (monitor_one st s') as [st1|] eqn:H1; [|discriminate].
    apply IH; [exact Hk|].
    eapply monitor_one_keeps_settled; [exact Hne | exact Hs | exact H1].
Qed.

Lemma monitor_stocks_settles l st st' :
  NoDup (key <$> l) -> monitor_stocks l st = Some st' ->
  forall s, s ∈ l -> settled s (fst st').
Proof.
  revert st. induction l as [|s' l IH]; intros st Hnd Hrun s Hs.
  - apply elem_of_nil in Hs. contradiction.
  - rewrite fmap_cons in Hnd. apply NoDup_cons in Hnd as [Hk Hnd].
    simpl in Hrun.
    destruct (monitor_one st s') as [st1|] eqn:H1; [|discriminate].
    apply elem_of_cons in Hs as [->|Hs].
    + eapply monitor_stocks_keeps_settled; [exact Hk | | exact Hrun].
      eapply monitor_one_settles. exact H1.
    + eapply IH; [exact Hnd | exact Hrun | exact Hs].
Qed.

Lemma monitor_stocks_settled l st :
  (forall s, s ∈ l -> settled s (fst st)) -> monitor_stocks l st = Some st.
Proof.
  induction l as [|s l IH]; intros H; [reflexivity|].
  simpl. rewrite monitor_one_settled.
  - apply IH. intros s' Hs'. apply H. apply list_elem_of_further. exact Hs'.
  - apply H. apply list_elem_of_here.
Qed.


Definition depot : list WarehouseStock :=
  [ {| warehouse := 1; product := 7; quantity := 0; reorder_point := 5;
       reorder_quantity := 20; needs_reorder := true |};
    {| warehouse := 1; product := 8; quantity := 3; reorder_point := 5;
       reorder_quantity := 20; needs_reorder := true |};
    {| warehouse := 1; product := 9; quantity := 90; reorder_point := 5;
       reorder_quantity := 20; needs_reorder := false |};
    {| warehouse := 2; product := 7; quantity := 30; reorder_point := 5;
       reorder_quantity := 20; needs_reorder := false |} ].

Definition stale_alert : Alert.StockAlert :=
  {| Alert.alert_type := "low_stock"; Alert.warehouse := 2;
     Alert.product := 7; Alert.is_resolved := false;
     Alert.priority := "high"; Alert.current_quantity := 2;
     Alert.threshold_quantity := 5; Alert.resolution_notes := "" |}.



(** Each stock row belonging to one warehouse and one product, and the
    active warehouses being distinct: a run that follows a run that
    returned, with the stock unchanged, changes no alert, creates none
    and queues no summary. *)
Theorem monitor_stock_levels_second_run ws stocks table r :
  NoDup ws -> NoDup (key <$> stocks) ->
  monitor_stock_levels ws stocks table = Some r ->
  monitor_stock_levels ws stocks (alerts r)
  = Some {| alerts := alerts r; created := no_alert; summary_sent := false |}.
Proof.
  intros Hws Hst. unfold monitor_stock_levels.
  rewrite !monitor_warehouses_visited.
  destruct (monitor_stocks (visited ws stocks) (table, no_alert))
    as [[t c]|] eqn:Hrun; [|discriminate].
  intros [= <-]. simpl.
  rewrite monitor_stocks_settled; [reflexivity|].
  intros s Hs. simpl.
  exact (monitor_stocks_settles _ _ _ (visited_keys ws stocks Hws Hst)
           Hrun s Hs).
Qed.

Lemma depot_keys : NoDup (key <$> depot).
Proof.
  apply NoDup_ListNoDup. unfold depot, key; simpl.
  repeat constructor; simpl; intuition congruence.
Qed.

Definition depot_run : run :=
  Eval vm_compute in
    match monitor_stock_levels [1%nat; 2%nat] depot [stale_alert] with
    | Some r => r
    | None => {| alerts := []; created := no_alert; summary_sent := false |}
    end.

Lemma monitor_stock_levels_second_run_witness :
  monitor_stock_levels [1%nat; 2%nat] depot [stale_alert] = Some depot_run
  /\ total_alerts (created depot_run) = 3%nat
  /\ monitor_stock_levels [1%nat; 2%nat] depot (alerts depot_run)
     = Some {| alerts := alerts depot_run; created := no_alert;
               summary_sent := false |}.
Proof.
  split; [vm_compute; reflexivity|]. split; [vm_compute; reflexivity|].
  apply (monitor_stock_levels_second_run [1%nat; 2%nat] depot [stale_alert]).
  - apply NoDup_ListNoDup. repeat constructor; simpl; intuition congruence.
  - apply depot_keys.
  - vm_compute. reflexivity.
Defined.

End StockMonitor.
